(** * scikit-network clustering: BiLouvain, KMeans and their collaborators

    A shallow embedding of [sknetwork/clustering/bilouvain.py] and
    [sknetwork/clustering/kmeans.py], together with the collaborators they
    import (cluster reindexing, graph aggregation, the Louvain driver, the
    bipartite-to-graph constructions), and the properties the specification
    states about them.

    Conventions.
    - Edge weights, null-model weights and scores are exact rationals ([Q]);
      equalities between them are stated with [==].  Rounding of machine
      floats is outside the model.
    - Cluster labels are natural numbers (non-negative integer ids).
    - A sparse matrix in row-compressed form is a list of rows, each row the
      list of its stored [(column, value)] pairs, plus the column count.
    - Python exceptions are values of [exn]; a computation that may raise
      returns [result]. *)

From Stdlib Require Import String ZArith QArith List Arith Lia Bool.
From Stdlib Require Import Sorted.
Import ListNotations.

Local Open Scope nat_scope.

(** ** Generic list helpers *)

Module ListAux.

(** Position of the first occurrence of [x] in [l]; [length l] when absent. *)
Fixpoint index_of (x : nat) (l : list nat) : nat :=
  match l with
  | [] => 0
  | y :: rest => if x =? y then 0 else S (index_of x rest)
  end.

(** Number of occurrences of [x] in [l]. *)
Definition count (l : list nat) (x : nat) : nat := count_occ Nat.eq_dec l x.

(** Distinct elements of [l] in order of first appearance. *)
Fixpoint first_seen (l : list nat) : list nat :=
  match l with
  | [] => []
  | x :: rest => x :: filter (fun y => negb (y =? x)) (first_seen rest)
  end.

Lemma index_of_lt x l : In x l <-> index_of x l < length l.
Proof.
  induction l as [|y l IH]; simpl.
  - split; [tauto | lia].
  - destruct (Nat.eqb_spec x y) as [->|Hne].
    + split; [lia | auto].
    + rewrite <- Nat.succ_lt_mono, <- IH. split; [intros [H|H]; congruence | auto].
Qed.

Lemma index_of_inj x y l :
  In x l -> index_of x l = index_of y l -> x = y.
Proof.
  induction l as [|z l IH]; simpl; [tauto|].
  destruct (Nat.eqb_spec x z) as [->|Hx], (Nat.eqb_spec y z) as [->|Hy];
    try discriminate; auto.
  intros [H|H] E; [congruence|]. injection E. auto.
Qed.

Lemma index_of_nth_NoDup l i d :
  NoDup l -> i < length l -> index_of (nth i l d) l = i.
Proof.
  intros Hnd. revert i.
  induction Hnd as [|y l Hy Hnd IH]; intros i Hi; simpl in *; [lia|].
  destruct i as [|i].
  - now rewrite Nat.eqb_refl.
  - destruct (Nat.eqb_spec (nth i l d) y) as [E|_].
    + exfalso. apply Hy. rewrite <- E. apply nth_In. lia.
    + f_equal. apply IH. lia.
Qed.

Lemma index_of_map (g : nat -> nat) x l :
  (forall y, In y l -> g y = g x -> y = x) ->
  index_of (g x) (map g l) = index_of x l.
Proof.
  induction l as [|y l IH]; simpl; intros Hinj; [reflexivity|].
  destruct (Nat.eqb_spec x y) as [->|Hne].
  - now rewrite Nat.eqb_refl.
  - destruct (Nat.eqb_spec (g x) (g y)) as [E|_].
    + exfalso. apply Hne. symmetry. apply Hinj; auto.
    + f_equal. apply IH. intros; apply Hinj; auto.
Qed.

Lemma count_map_inj (g : nat -> nat) l x :
  (forall y, In y l -> g y = g x -> y = x) ->
  count (map g l) (g x) = count l x.
Proof.
  unfold count.
  induction l as [|y l IH]; simpl; intros Hinj; [reflexivity|].
  destruct (Nat.eq_dec y x) as [->|Hne].
  - destruct (Nat.eq_dec (g x) (g x)); [|congruence].
    f_equal. apply IH. intros; apply Hinj; auto.
  - destruct (Nat.eq_dec (g y) (g x)) as [E|_].
    + exfalso. apply Hne, Hinj; auto.
    + apply IH. intros; apply Hinj; auto.
Qed.

Lemma first_seen_In l x : In x (first_seen l) <-> In x l.
Proof.
  induction l as [|y l IH]; simpl; [tauto|].
  rewrite filter_In, IH, negb_true_iff, Nat.eqb_neq.
  destruct (Nat.eq_dec y x); intuition congruence.
Qed.

Lemma NoDup_filter (f : nat -> bool) l : NoDup l -> NoDup (filter f l).
Proof.
  induction 1 as [|y l Hy Hnd IH]; simpl; [constructor|].
  destruct (f y); auto. constructor; auto.
  rewrite filter_In. tauto.
Qed.

Lemma first_seen_NoDup l : NoDup (first_seen l).
Proof.
  induction l as [|y l IH]; simpl; constructor.
  - rewrite filter_In, negb_true_iff, Nat.eqb_neq. intros [_ H]. now apply H.
  - now apply NoDup_filter.
Qed.

Lemma filter_map_commute (g : nat -> nat) (p q : nat -> bool) l :
  (forall y, In y l -> q (g y) = p y) ->
  filter q (map g l) = map g (filter p l).
Proof.
  induction l as [|y l IH]; simpl; intros H; [reflexivity|].
  rewrite (H y) by auto. rewrite IH by auto.
  destruct (p y); reflexivity.
Qed.

(** [first_seen] commutes with a relabelling that is injective on the list. *)
Lemma first_seen_map (g : nat -> nat) l :
  (forall x y, In x l -> In y l -> g x = g y -> x = y) ->
  first_seen (map g l) = map g (first_seen l).
Proof.
  induction l as [|y l IH]; simpl; intros Hinj; [reflexivity|].
  f_equal. rewrite IH by (intros; apply Hinj; auto).
  apply filter_map_commute. intros z Hz.
  rewrite first_seen_In in Hz. f_equal.
  destruct (Nat.eqb_spec (g z) (g y)) as [E|Hne], (Nat.eqb_spec z y) as [E'|Hne'];
    try reflexivity.
  - exfalso. apply Hne'. apply Hinj; simpl; auto.
  - exfalso. congruence.
Qed.

End ListAux.

(** ** Cluster reindexing ([sknetwork.clustering.postprocessing]) *)

Module Postprocessing.
Import ListAux.

(** Number of distinct labels of a labeling. *)
Definition n_distinct (labels : list nat) : nat := length (first_seen labels).

(** Stable insertion of cluster [c] into a list ordered by descending size:
    [c] goes after every cluster that is strictly larger and before every
    cluster that is not. *)
Fixpoint insert_cluster (size : nat -> nat) (c : nat) (sorted : list nat)
  : list nat :=
  match sorted with
  | [] => [c]
  | d :: rest =>
      if size c <? size d then d :: insert_cluster size c rest
      else c :: d :: rest
  end.

Fixpoint sort_clusters (size : nat -> nat) (cs : list nat) : list nat :=
  match cs with
  | [] => []
  | c :: rest => insert_cluster size c (sort_clusters size rest)
  end.

(** Modelled from the spec: the order of spec 4.5.  The clusters of a
    labeling by descending size, ties in first-seen order. *)
Definition cluster_order (labels : list nat) : list nat :=
  sort_clusters (count labels) (first_seen labels).

(** Modelled from the spec: [reindex_clusters] lives in
    [sknetwork/clustering/postprocessing.py], whose source is not
    available.  Spec 4.5: clusters are ordered by descending size; ties are
    broken by the smallest node index appearing in the cluster (first-seen
    order); the result is a dense labeling starting at 0. *)
Definition reindex_clusters (labels : list nat) : list nat :=
  map (fun l => index_of l (cluster_order labels)) labels.

(** The order the spec prescribes between two clusters, in terms of the
    input labeling: larger first, then earlier first occurrence. *)
Definition ranks_before (labels : list nat) (x y : nat) : Prop :=
  count labels y < count labels x \/
  (count labels x = count labels y /\ index_of x labels < index_of y labels).

Example reindex_clusters_ex1 :
  reindex_clusters [7; 3; 3; 7; 3; 9] = [1; 0; 0; 1; 0; 2].
Proof. reflexivity. Qed.

Example reindex_clusters_ex2 :
  reindex_clusters [5; 2; 2; 5; 8; 8] = [0; 1; 1; 0; 2; 2].
Proof. reflexivity. Qed.

Section SortFacts.

Variable size : nat -> nat.

Lemma insert_cluster_In c x l :
  In x (insert_cluster size c l) <-> x = c \/ In x l.
Proof.
  induction l as [|d l IH]; simpl.
  - intuition.
  - destruct (size c <? size d); simpl; rewrite ?IH; intuition.
Qed.

Lemma sort_clusters_In x l : In x (sort_clusters size l) <-> In x l.
Proof.
  induction l as [|c l IH]; simpl; [tauto|].
  rewrite insert_cluster_In, IH. intuition.
Qed.

Lemma insert_cluster_length c l :
  length (insert_cluster size c l) = S (length l).
Proof.
  induction l as [|d l IH]; simpl; [reflexivity|].
  destruct (size c <? size d); simpl; lia.
Qed.

Lemma sort_clusters_length l : length (sort_clusters size l) = length l.
Proof.
  induction l as [|c l IH]; simpl; [reflexivity|].
  rewrite insert_cluster_length. lia.
Qed.

Lemma insert_cluster_NoDup c l :
  ~ In c l -> NoDup l -> NoDup (insert_cluster size c l).
Proof.
  induction l as [|d l IH]; simpl; intros Hc Hnd.
  - constructor; [tauto | constructor].
  - destruct (size c <? size d).
    + inversion Hnd; subst. constructor.
      * rewrite insert_cluster_In. intuition.
      * apply IH; tauto.
    + constructor; simpl; auto.
Qed.

Lemma sort_clusters_NoDup l : NoDup l -> NoDup (sort_clusters size l).
Proof.
  induction 1 as [|c l Hc Hnd IH]; simpl; [constructor|].
  apply insert_cluster_NoDup; auto. now rewrite sort_clusters_In.
Qed.

(** Inserting into a list that is strongly sorted for [R] keeps it so, when
    [R] agrees with the size test of [insert_cluster]. *)
Lemma insert_cluster_sorted (R : nat -> nat -> Prop) c l :
  StronglySorted R l ->
  (forall d, In d l -> size c < size d -> R d c) ->
  (forall d, In d l -> size d <= size c -> R c d) ->
  (forall d e, R d e -> size e <= size d) ->
  StronglySorted R (insert_cluster size c l).
Proof.
  intros Hs Hbig Hsmall Hmono.
  induction Hs as [|d l Hs IH Hd]; simpl.
  - repeat constructor.
  - destruct (Nat.ltb_spec (size c) (size d)) as [Hlt|Hge].
    + constructor.
      * apply IH; intros; [apply Hbig | apply Hsmall]; simpl; auto.
      * rewrite Forall_forall in *. intros x Hx.
        apply insert_cluster_In in Hx. destruct Hx as [->|Hx]; auto.
        apply Hbig; simpl; auto.
    + constructor; [constructor; auto|].
      constructor; [apply Hsmall; simpl; auto|].
      rewrite Forall_forall in *. intros x Hx.
      apply Hsmall; simpl; auto.
      specialize (Hmono _ _ (Hd x Hx)). lia.
Qed.

Variable pos : nat -> nat.

(** Larger size first, then smaller position. *)
Definition size_pos_before (x y : nat) : Prop :=
  size y < size x \/ (size x = size y /\ pos x < pos y).

Lemma sort_clusters_sorted l :
  StronglySorted (fun x y => pos x < pos y) l ->
  StronglySorted size_pos_before (sort_clusters size l).
Proof.
  induction 1 as [|c l Hs IH Hc]; simpl; [constructor|].
  rewrite Forall_forall in Hc.
  apply insert_cluster_sorted; auto; unfold size_pos_before.
  - intros d _ Hlt. now left.
  - intros d Hd Hle. rewrite sort_clusters_In in Hd.
    destruct (Nat.eq_dec (size d) (size c)); [right; auto | left; lia].
  - intros d e [H|[H _]]; lia.
Qed.

End SortFacts.

(** Sorting commutes with a relabelling that preserves sizes. *)
Lemma insert_cluster_map (g : nat -> nat) size size' c l :
  size' (g c) = size c ->
  (forall x, In x l -> size' (g x) = size x) ->
  insert_cluster size' (g c) (map g l) = map g (insert_cluster size c l).
Proof.
  intros Hc. induction l as [|d l IH]; simpl; intros Hl; [reflexivity|].
  rewrite Hc, (Hl d) by auto.
  destruct (size c <? size d); simpl; [|reflexivity].
  f_equal. apply IH. auto.
Qed.

Lemma sort_clusters_map (g : nat -> nat) size size' l :
  (forall x, In x l -> size' (g x) = size x) ->
  sort_clusters size' (map g l) = map g (sort_clusters size l).
Proof.
  induction l as [|c l IH]; simpl; intros Hl; [reflexivity|].
  rewrite IH by auto. apply insert_cluster_map; auto.
  intros x Hx. apply Hl. right. now apply sort_clusters_In in Hx.
Qed.

Lemma StronglySorted_weaken (R R' : nat -> nat -> Prop) l :
  (forall x y, In x l -> In y l -> R x y -> R' x y) ->
  StronglySorted R l -> StronglySorted R' l.
Proof.
  intros Himp Hs. induction Hs as [|d l Hs IH Hd]; constructor.
  - apply IH. intros; apply Himp; simpl; auto.
  - rewrite Forall_forall in *. intros x Hx. apply Himp; simpl; auto.
Qed.

Lemma StronglySorted_filter (R : nat -> nat -> Prop) (p : nat -> bool) l :
  StronglySorted R l -> StronglySorted R (filter p l).
Proof.
  induction 1 as [|d l Hs IH Hd]; simpl; [constructor|].
  destruct (p d); auto. constructor; auto.
  rewrite Forall_forall in *. intros x Hx. apply filter_In in Hx. apply Hd, Hx.
Qed.

(** The first-seen representatives appear by increasing first occurrence. *)
Lemma first_seen_sorted labels :
  StronglySorted (fun x y => index_of x labels < index_of y labels)
                 (first_seen labels).
Proof.
  induction labels as [|a rest IH]; simpl; constructor.
  - apply StronglySorted_filter with (p := fun y => negb (y =? a)) in IH.
    revert IH. apply StronglySorted_weaken. intros x y Hx Hy.
    apply filter_In in Hx, Hy.
    destruct Hx as [_ Hx], Hy as [_ Hy].
    apply negb_true_iff in Hx, Hy. rewrite Hx, Hy. lia.
  - rewrite Forall_forall. intros y Hy. apply filter_In in Hy.
    destruct Hy as [_ Hy]. apply negb_true_iff in Hy.
    rewrite Nat.eqb_refl, Hy. lia.
Qed.

Lemma sorted_index_lt (R : nat -> nat -> Prop) l x y :
  StronglySorted R l -> In y l ->
  index_of x l < index_of y l -> R x y.
Proof.
  induction 1 as [|d l Hs IH Hd]; simpl; [tauto|].
  rewrite Forall_forall in Hd.
  destruct (Nat.eqb_spec x d) as [->|Hx], (Nat.eqb_spec y d) as [->|Hy];
    intros Hin Hlt; try lia.
  - apply Hd. destruct Hin; congruence.
  - apply IH; [destruct Hin; congruence | lia].
Qed.

Section Reindex.

Variable labels : list nat.

Let order := cluster_order labels.
Let rank (l : nat) : nat := index_of l order.

Lemma cluster_order_In x : In x (cluster_order labels) <-> In x labels.
Proof. unfold cluster_order. now rewrite sort_clusters_In, first_seen_In. Qed.

Lemma cluster_order_NoDup : NoDup (cluster_order labels).
Proof. apply sort_clusters_NoDup, first_seen_NoDup. Qed.

Lemma cluster_order_length : length (cluster_order labels) = n_distinct labels.
Proof. apply sort_clusters_length. Qed.

Lemma cluster_order_sorted :
  StronglySorted (ranks_before labels) (cluster_order labels).
Proof.
  apply (sort_clusters_sorted (count labels) (fun x => index_of x labels)).
  apply first_seen_sorted.
Qed.

Lemma rank_inj x y : In x labels -> rank x = rank y -> x = y.
Proof. intros Hx. apply index_of_inj. now apply cluster_order_In. Qed.

Lemma rank_lt x : In x labels <-> rank x < n_distinct labels.
Proof.
  rewrite <- cluster_order_length, <- cluster_order_In. apply index_of_lt.
Qed.

(** The rank of a cluster is decided by size, then by first occurrence. *)
Lemma rank_order x y :
  In x labels -> In y labels ->
  (rank x < rank y <-> ranks_before labels x y).
Proof.
  intros Hx Hy. split.
  - apply sorted_index_lt; [apply cluster_order_sorted|].
    now apply cluster_order_In.
  - intros Hb.
    destruct (Nat.lt_trichotomy (rank x) (rank y)) as [H|[H|H]]; auto.
    + apply rank_inj in H; auto. subst y.
      unfold ranks_before in Hb. lia.
    + exfalso.
      assert (Hb' : ranks_before labels y x).
      { apply sorted_index_lt with (l := cluster_order labels);
          [apply cluster_order_sorted | now apply cluster_order_In | exact H]. }
      unfold ranks_before in *. lia.
Qed.

Lemma reindex_clusters_length :
  length (reindex_clusters labels) = length labels.
Proof. apply length_map. Qed.

Lemma reindex_clusters_nth i :
  i < length labels ->
  nth i (reindex_clusters labels) 0 = rank (nth i labels 0).
Proof.
  intros Hi. unfold reindex_clusters.
  rewrite nth_indep with (d' := rank 0) by now rewrite length_map.
  apply (map_nth rank).
Qed.

(** The new labels are exactly [0 .. n_distinct labels - 1]. *)
Lemma reindex_clusters_dense v :
  In v (reindex_clusters labels) <-> v < n_distinct labels.
Proof.
  unfold reindex_clusters. rewrite in_map_iff. split.
  - intros [x [<- Hx]]. now apply rank_lt.
  - intros Hv. rewrite <- cluster_order_length in Hv.
    exists (nth v (cluster_order labels) 0). split.
    + apply index_of_nth_NoDup; [apply cluster_order_NoDup | exact Hv].
    + apply cluster_order_In, nth_In, Hv.
Qed.

Lemma reindex_clusters_count x :
  In x labels -> count (reindex_clusters labels) (rank x) = count labels x.
Proof.
  intros Hx. apply (count_map_inj rank).
  intros y Hy E. now apply rank_inj.
Qed.

End Reindex.

(** Two nodes share a new label exactly when they shared the old one. *)
Lemma reindex_clusters_partition labels i j :
  i < length labels -> j < length labels ->
  (nth i (reindex_clusters labels) 0 = nth j (reindex_clusters labels) 0 <->
   nth i labels 0 = nth j labels 0).
Proof.
  intros Hi Hj. rewrite !reindex_clusters_nth by assumption. split.
  - apply rank_inj. now apply nth_In.
  - now intros ->.
Qed.

(** The outcome only depends on the partition, not on the label values. *)
Lemma reindex_clusters_relabel (g : nat -> nat) labels :
  (forall x y, In x labels -> In y labels -> g x = g y -> x = y) ->
  reindex_clusters (map g labels) = reindex_clusters labels.
Proof.
  intros Hinj. unfold reindex_clusters. rewrite map_map.
  apply map_ext_in. intros x Hx.
  unfold cluster_order. rewrite (first_seen_map g) by exact Hinj.
  rewrite (@sort_clusters_map g (count labels)).
  - apply index_of_map. intros y Hy E.
    rewrite sort_clusters_In, first_seen_In in Hy. auto.
  - intros y Hy. rewrite first_seen_In in Hy.
    apply count_map_inj. intros z Hz E. auto.
Qed.

Lemma reindex_clusters_idempotent labels :
  reindex_clusters (reindex_clusters labels) = reindex_clusters labels.
Proof.
  unfold reindex_clusters at 2.
  apply reindex_clusters_relabel.
  intros x y Hx _. now apply rank_inj.
Qed.

(** C8.  The Cluster Reindexer is idempotent, and its output is a dense
    labeling starting at 0 (same length, same partition, values exactly
    [0 .. k-1] for [k] distinct input labels) in which clusters are numbered
    by descending size, ties being broken by the earliest node of the cluster:
    node [i] gets a smaller new label than node [j] exactly when the cluster
    of [i] is larger, or as large and first seen earlier. *)
Theorem reindex_clusters_spec (labels : list nat) :
  let out := reindex_clusters labels in
  reindex_clusters out = out
  /\ length out = length labels
  /\ (forall v, In v out <-> v < n_distinct labels)
  /\ (forall i j, i < length labels -> j < length labels ->
        (nth i out 0 = nth j out 0 <-> nth i labels 0 = nth j labels 0))
  /\ (forall i j, i < length labels -> j < length labels ->
        (nth i out 0 < nth j out 0 <->
         ranks_before labels (nth i labels 0) (nth j labels 0)))
  /\ (forall a b, a <= b -> b < n_distinct labels -> count out b <= count out a).
Proof.
  cbv zeta.
  split; [apply reindex_clusters_idempotent|].
  split; [apply reindex_clusters_length|].
  split; [apply reindex_clusters_dense|].
  assert (Hin : forall i, i < length labels -> In (nth i labels 0) labels)
    by (intros; now apply nth_In).
  split; [|split].
  - apply reindex_clusters_partition.
  - intros i j Hi Hj. rewrite !reindex_clusters_nth by assumption.
    apply rank_order; auto.
  - intros a b Hab Hb.
    destruct (Nat.eq_dec a b) as [->|Hne]; [lia|].
    assert (Ha : a < n_distinct labels) by lia.
    rewrite <- cluster_order_length in Ha, Hb.
    set (x := nth a (cluster_order labels) 0).
    set (y := nth b (cluster_order labels) 0).
    assert (Hx : In x labels) by (apply cluster_order_In, nth_In, Ha).
    assert (Hy : In y labels) by (apply cluster_order_In, nth_In, Hb).
    assert (Ea : index_of x (cluster_order labels) = a)
      by (apply index_of_nth_NoDup; [apply cluster_order_NoDup | exact Ha]).
    assert (Eb : index_of y (cluster_order labels) = b)
      by (apply index_of_nth_NoDup; [apply cluster_order_NoDup | exact Hb]).
    rewrite <- Ea, <- Eb.
    rewrite !reindex_clusters_count by assumption.
    assert (Hr : ranks_before labels x y) by (apply rank_order; auto; lia).
    unfold ranks_before in Hr. lia.
Qed.

End Postprocessing.

(** ** Sparse matrices in row-compressed form *)

Module Sparse.

Local Open Scope Q_scope.

(** Sum of a list of weights (numpy's [sum]). *)
Fixpoint Qsum (l : list Q) : Q :=
  match l with
  | [] => 0
  | x :: rest => x + Qsum rest
  end.

(** Row [i] of the matrix is [nth i rows []]: the stored [(column, value)]
    pairs of that row, in storage order.  The row pointers of the usual
    three-array layout are the running lengths of [rows]; [indices] and
    [data] are the concatenated first and second components. *)
Record csr_matrix : Type := mk_csr {
  n_cols : nat;
  rows : list (list (nat * Q))
}.

(** A stored entry: column index and value. *)
Definition stored (j : nat) (v : Q) : nat * Q := (j, v).

Definition n_rows (m : csr_matrix) : nat := length (rows m).
Definition shape (m : csr_matrix) : nat * nat := (n_rows m, n_cols m).

Definition indices (m : csr_matrix) : list nat := map fst (concat (rows m)).
Definition data (m : csr_matrix) : list Q := map snd (concat (rows m)).

(** [m.data.sum()]: the total edge weight. *)
Definition total_weight (m : csr_matrix) : Q := Qsum (data m).

(** Value at [(i, j)]; stored duplicates add up, absent entries are 0. *)
Definition row_entry (row : list (nat * Q)) (j : nat) : Q :=
  Qsum (map snd (filter (fun e => (fst e =? j)%nat) row)).

Definition entry (m : csr_matrix) (i j : nat) : Q :=
  row_entry (nth i (rows m) []) j.

(** [m * c] for a scalar [c]: every stored value is multiplied. *)
Definition scale (m : csr_matrix) (c : Q) : csr_matrix :=
  {| n_cols := n_cols m;
     rows := map (map (fun e => (fst e, snd e * c))) (rows m) |}.

(** Every stored column index is within the declared width. *)
Definition well_formed (m : csr_matrix) : Prop :=
  Forall (Forall (fun e => (fst e < n_cols m)%nat)) (rows m).

Definition square (m : csr_matrix) : Prop := n_rows m = n_cols m.

(** The stored entries as [(row, column, value)] triples, row by row. *)
Fixpoint triples_from (i : nat) (rs : list (list (nat * Q)))
  : list (nat * nat * Q) :=
  match rs with
  | [] => []
  | r :: rest => map (fun e => (i, fst e, snd e)) r ++ triples_from (S i) rest
  end.

Definition triples (m : csr_matrix) : list (nat * nat * Q) :=
  triples_from 0 (rows m).

Definition t_row (t : nat * nat * Q) : nat := fst (fst t).
Definition t_col (t : nat * nat * Q) : nat := snd (fst t).
Definition t_val (t : nat * nat * Q) : Q := snd t.

(** [m.T]: row [j] of the transpose lists the stored entries of column
    [j], by increasing row. *)
Definition transpose (m : csr_matrix) : csr_matrix :=
  {| n_cols := n_rows m;
     rows := map (fun j =>
                    map (fun t => (t_row t, t_val t))
                        (filter (fun t => (t_col t =? j)%nat) (triples m)))
                 (seq 0 (n_cols m)) |}.

(** *** Sums *)

Lemma Qsum_app l1 l2 : Qsum (l1 ++ l2) == Qsum l1 + Qsum l2.
Proof.
  induction l1 as [|x l1 IH]; simpl; [ring|]. rewrite IH. ring.
Qed.

Lemma Qsum_concat (ls : list (list Q)) :
  Qsum (concat ls) == Qsum (map Qsum ls).
Proof.
  induction ls as [|l ls IH]; simpl; [reflexivity|].
  rewrite Qsum_app, IH. reflexivity.
Qed.

Lemma Qsum_map_ext (A : Type) (f g : A -> Q) l :
  (forall x, In x l -> f x == g x) -> Qsum (map f l) == Qsum (map g l).
Proof.
  induction l as [|x l IH]; simpl; intros H; [reflexivity|].
  rewrite (H x), IH by auto. reflexivity.
Qed.

Lemma Qsum_map_zero (A : Type) (l : list A) : Qsum (map (fun _ => 0) l) == 0.
Proof. induction l as [|x l IH]; simpl; [reflexivity|]. rewrite IH. ring. Qed.

Lemma Qsum_map_plus (A : Type) (f g : A -> Q) l :
  Qsum (map (fun x => f x + g x) l) == Qsum (map f l) + Qsum (map g l).
Proof.
  induction l as [|x l IH]; simpl; [ring|]. rewrite IH. ring.
Qed.

Lemma Qsum_map_scale (A : Type) (f : A -> Q) c l :
  Qsum (map (fun x => f x * c) l) == Qsum (map f l) * c.
Proof.
  induction l as [|x l IH]; simpl; [ring|]. rewrite IH. ring.
Qed.

(** A value placed in exactly one of the bins [ks] is recovered by summing
    over the bins. *)
Lemma Qsum_single_bin (ks : list nat) (c : nat) (v : Q) :
  NoDup ks -> In c ks ->
  Qsum (map (fun k => if (c =? k)%nat then v else 0) ks) == v.
Proof.
  induction 1 as [|k ks Hk Hnd IH]; simpl; [tauto|].
  intros [->|Hin].
  - rewrite Nat.eqb_refl.
    rewrite (@Qsum_map_ext _ _ (fun _ => 0)), Qsum_map_zero; [ring|].
    intros x Hx. destruct (Nat.eqb_spec c x); [subst; tauto | reflexivity].
  - destruct (Nat.eqb_spec c k) as [->|_]; [tauto|].
    rewrite IH by assumption. ring.
Qed.

(** Splitting a weighted list into bins by an (optional) key and summing
    bin by bin gives the sum of the whole list, provided every element has a
    key among the bins. *)
Lemma Qsum_by_bins (A : Type) (key : A -> option nat) (w : A -> Q)
      (ks : list nat) (l : list A) :
  NoDup ks ->
  (forall x, In x l -> exists k, key x = Some k /\ In k ks) ->
  Qsum (map (fun k =>
               Qsum (map w (filter (fun x =>
                 match key x with Some k' => (k' =? k)%nat | None => false end)
                 l))) ks)
  == Qsum (map w l).
Proof.
  intros Hnd. induction l as [|a l IH]; simpl; intros Hkey.
  - apply Qsum_map_zero.
  - destruct (Hkey a (or_introl eq_refl)) as [c [Hc Hin]]. rewrite Hc.
    rewrite <- IH by auto.
    rewrite <- (@Qsum_single_bin ks c (w a) Hnd Hin) at 1.
    rewrite <- Qsum_map_plus.
    apply Qsum_map_ext. intros k _.
    destruct (c =? k)%nat; simpl; ring.
Qed.

Lemma triples_from_vals i rs :
  map t_val (triples_from i rs) = map snd (concat rs).
Proof.
  revert i. induction rs as [|r rs IH]; intros i; simpl; [reflexivity|].
  rewrite !map_app, map_map, IH. reflexivity.
Qed.

Lemma total_weight_triples m :
  total_weight m = Qsum (map t_val (triples m)).
Proof. unfold total_weight, data, triples. now rewrite triples_from_vals. Qed.

Lemma triples_from_bounds i rs t width :
  Forall (Forall (fun e => (fst e < width)%nat)) rs ->
  In t (triples_from i rs) ->
  (i <= t_row t < i + length rs)%nat /\ (t_col t < width)%nat.
Proof.
  revert i. induction rs as [|r rs IH]; intros i Hwf; simpl; [tauto|].
  inversion Hwf as [|? ? Hr Hrs]; subst.
  rewrite in_app_iff, in_map_iff. intros [[e [<- He]]|Ht].
  - unfold t_row, t_col; simpl. rewrite Forall_forall in Hr.
    split; [lia | now apply Hr].
  - destruct (IH (S i) Hrs Ht). split; [lia | assumption].
Qed.

Lemma triples_bounds m t :
  well_formed m -> In t (triples m) ->
  (t_row t < n_rows m)%nat /\ (t_col t < n_cols m)%nat.
Proof.
  intros Hwf Ht.
  destruct (@triples_from_bounds 0%nat (rows m) t (n_cols m) Hwf Ht).
  unfold n_rows. split; [lia | assumption].
Qed.

Lemma row_entry_scale row c j :
  row_entry (map (fun e => (fst e, snd e * c)) row) j == row_entry row j * c.
Proof.
  unfold row_entry. induction row as [|e row IH]; simpl; [ring|].
  destruct (fst e =? j)%nat; simpl; rewrite IH; ring.
Qed.

(** Scaling multiplies every entry. *)
Lemma entry_scale m c i j : entry (scale m c) i j == entry m i j * c.
Proof.
  unfold entry, scale; simpl.
  change (@nil (nat * Q)) with (map (fun e : nat * Q => (fst e, snd e * c)) [])
    at 1.
  rewrite map_nth. apply row_entry_scale.
Qed.

Lemma total_weight_scale m c : total_weight (scale m c) == total_weight m * c.
Proof.
  unfold total_weight, data, scale; simpl.
  rewrite <- Qsum_map_scale.
  induction (rows m) as [|r rs IH]; simpl; [reflexivity|].
  rewrite !map_app, !Qsum_app, IH, !map_map. reflexivity.
Qed.

End Sparse.

(** ** Aggregation Engine *)

Module Aggregation.
Import ListAux Sparse.

Local Open Scope Q_scope.

(** Coarse node ids: [0 .. k-1] for [k] distinct labels. *)
Definition cluster_ids (labels : list nat) : list nat :=
  seq 0 (length (first_seen labels)).

(** Coarse id of the cluster of node [i]: the rank of its label in order of
    first appearance among [labels]; undefined for a node without a label. *)
Definition cluster_of (labels : list nat) (i : nat) : option nat :=
  match nth_error labels i with
  | Some l => Some (index_of l (first_seen labels))
  | None => None
  end.

Definition in_cluster (labels : list nat) (c i : nat) : bool :=
  match cluster_of labels i with
  | Some c' => (c' =? c)%nat
  | None => false
  end.

(** The fine-to-coarse node map induced by a labeling. *)
Definition membership (labels : list nat) : list nat :=
  map (fun l => index_of l (first_seen labels)) labels.

(** Sum of the weights of all edges from cluster [c1] to cluster [c2]. *)
Definition coarse_entry (g : csr_matrix) (labels : list nat) (c1 c2 : nat) : Q :=
  Qsum (map t_val
         (filter (fun t => in_cluster labels c2 (t_col t))
           (filter (fun t => in_cluster labels c1 (t_row t)) (triples g)))).

Definition coarse_graph (g : csr_matrix) (labels : list nat) : csr_matrix :=
  let ks := cluster_ids labels in
  {| n_cols := length ks;
     rows := map (fun c1 => map (fun c2 => (c2, coarse_entry g labels c1 c2)) ks)
                 ks |}.

(** Per-cluster sums of a per-node weight vector. *)
Definition coarse_weights (w : list Q) (labels : list nat) : list Q :=
  map (fun c =>
         Qsum (map snd (filter (fun iw => in_cluster labels c (fst iw))
                               (combine (seq 0 (length w)) w))))
      (cluster_ids labels).

(** Modelled from the spec: the Aggregation Engine is part of
    [sknetwork/clustering/louvain.py], whose source is not
    available.  Spec 4.2: entry [(c1, c2)] of the coarse graph is the sum of
    all edge weights between nodes labeled [c1] and nodes labeled [c2]
    (self-entries include intra-cluster edges and self-loops); the coarse
    weight vectors sum the per-node weights within each cluster; cluster ids
    are renumbered densely in order of first appearance among the labels.
    The null-model vectors travel with the graph. *)
Definition aggregate (g : csr_matrix) (row_w col_w : list Q)
           (labels : list nat) : csr_matrix * list Q * list Q :=
  (coarse_graph g labels,
   coarse_weights row_w labels,
   coarse_weights col_w labels).

(** Two triangles joined by one edge, nodes labeled by triangle. *)
Definition two_triangles : csr_matrix :=
  {| n_cols := 6;
     rows := [ [stored 1 1; stored 2 1];
               [stored 0 1; stored 2 1];
               [stored 0 1; stored 1 1; stored 3 (1#2)];
               [stored 2 (1#2); stored 4 1; stored 5 1];
               [stored 3 1; stored 5 1];
               [stored 3 1; stored 4 1] ] |}.

Example aggregate_two_triangles :
  coarse_graph two_triangles [4; 4; 4; 9; 9; 9]%nat
  = {| n_cols := 2;
       rows := [ [stored 0 (Qsum [1;1;1;1;1;1]); stored 1 (Qsum [1#2])];
                 [stored 0 (Qsum [1#2]); stored 1 (Qsum [1;1;1;1;1;1])] ] |}.
Proof. reflexivity. Qed.

Lemma cluster_ids_NoDup labels : NoDup (cluster_ids labels).
Proof. apply seq_NoDup. Qed.

Lemma cluster_of_defined labels i :
  (i < length labels)%nat ->
  exists k, cluster_of labels i = Some k /\ In k (cluster_ids labels).
Proof.
  intros Hi. unfold cluster_of.
  destruct (nth_error labels i) as [l|] eqn:E.
  - exists (index_of l (first_seen labels)). split; [reflexivity|].
    apply in_seq. split; [lia|]. simpl.
    apply index_of_lt, first_seen_In. eapply nth_error_In; eauto.
  - apply nth_error_None in E. lia.
Qed.

Lemma total_weight_rows m :
  total_weight m == Qsum (map (fun r => Qsum (map snd r)) (rows m)).
Proof.
  unfold total_weight, data.
  rewrite concat_map, Qsum_concat, map_map. reflexivity.
Qed.

Lemma coarse_graph_total g labels :
  total_weight (coarse_graph g labels)
  == Qsum (map (fun c1 => Qsum (map (coarse_entry g labels c1)
                                    (cluster_ids labels)))
               (cluster_ids labels)).
Proof.
  rewrite total_weight_rows. simpl. rewrite map_map.
  apply Qsum_map_ext. intros c1 _. rewrite map_map. reflexivity.
Qed.

(** C1.  Weight conservation: for a well-formed square graph and a labeling
    with one label per node, the coarse graph returned by [aggregate] has the
    same total edge weight as the input graph. *)
Theorem aggregate_conserves_weight
        (g : csr_matrix) (row_w col_w : list Q) (labels : list nat) :
  well_formed g -> square g -> length labels = n_rows g ->
  total_weight (fst (fst (aggregate g row_w col_w labels))) == total_weight g.
Proof.
  intros Hwf Hsq Hlen. simpl.
  rewrite coarse_graph_total, total_weight_triples.
  set (ks := cluster_ids labels).
  set (by_row := fun c1 => filter (fun t => in_cluster labels c1 (t_row t))
                                  (triples g)).
  assert (Hrow : forall c1, Qsum (map (coarse_entry g labels c1) ks)
                            == Qsum (map t_val (by_row c1))).
  { intros c1.
    apply (@Qsum_by_bins _ (fun t => cluster_of labels (t_col t)) t_val ks
                         (by_row c1)); [apply cluster_ids_NoDup|].
    intros t Ht. apply filter_In in Ht. destruct Ht as [Ht _].
    apply cluster_of_defined.
    destruct (triples_bounds g t Hwf Ht) as [_ Hc].
    rewrite Hlen, Hsq. exact Hc. }
  rewrite (Qsum_map_ext _ _ _ _ (fun c1 _ => Hrow c1)).
  apply (@Qsum_by_bins _ (fun t => cluster_of labels (t_row t)) t_val ks
                       (triples g)); [apply cluster_ids_NoDup|].
  intros t Ht. apply cluster_of_defined.
  destruct (triples_bounds g t Hwf Ht) as [Hr _].
  rewrite Hlen. exact Hr.
Qed.

Lemma two_triangles_well_formed : well_formed two_triangles.
Proof.
  unfold well_formed, two_triangles, stored; simpl.
  repeat (constructor; simpl; try lia).
Defined.

(** Weight conservation on the two triangles, labeled by triangle. *)
Lemma aggregate_conserves_weight_witness :
  well_formed two_triangles /\ square two_triangles /\
  length [4; 4; 4; 9; 9; 9]%nat = n_rows two_triangles /\
  total_weight
    (fst (fst (aggregate two_triangles [] [] [4; 4; 4; 9; 9; 9]%nat)))
  == total_weight two_triangles.
Proof.
  split; [exact two_triangles_well_formed|].
  split; [reflexivity|]. split; [reflexivity|].
  apply (aggregate_conserves_weight two_triangles [] [] [4; 4; 4; 9; 9; 9]%nat).
  - exact two_triangles_well_formed.
  - reflexivity.
  - reflexivity.
Defined.

End Aggregation.

(** ** Louvain driver *)

Module Louvain.
Import ListAux Sparse Aggregation.

Local Open Scope Q_scope.

(** Modelled from the spec: the class [Optimizer] of
    [sknetwork/clustering/louvain.py] is not available.  Spec 4.1 and 9: the
    Local Move Optimizer takes a graph with its two null-model vectors and
    returns a labeling and a score; resolution and tolerance are fixed when
    the object is built. *)
Record Optimizer : Type := mk_optimizer {
  optimize : csr_matrix -> list Q -> list Q -> list nat * Q
}.

(** An optimizer honours its contract when it labels every node. *)
Definition labels_every_node (o : Optimizer) : Prop :=
  forall g rw cw, length (fst (optimize o g rw cw)) = n_rows g.

(** The driver object's configuration. *)
Record Louvain : Type := mk_louvain {
  algorithm : Optimizer;
  agg_tol : Q;
  max_agg_iter : Z;
  verbose : bool
}.

Record LouvainResult : Type := mk_result {
  labels_ : list nat;
  aggregate_graph_ : csr_matrix;
  score_ : Q;
  n_clusters_ : nat;
  iteration_count_ : nat
}.

(** State of the driver while [RUNNING(level)]. *)
Record Level : Type := mk_level {
  level : nat;
  graph : csr_matrix;
  row_weights : list Q;
  col_weights : list Q;
  prev_score : Q;
  records : list (list nat)
}.

(** The level count has reached [max_agg_iter]; a negative budget never
    does. *)
Definition budget_reached (budget : Z) (lv : nat) : bool :=
  ((0 <=? budget) && (budget <=? Z.of_nat lv))%Z.

(** Level 0 is always accepted; a later level needs a gain of at least
    [agg_tol] over the previous one. *)
Definition accepted (tol : Q) (lv : nat) (gain : Q) : bool :=
  (lv =? 0)%nat || Qle_bool tol gain.

(** Image of node [i] under the level records, finest first. *)
Fixpoint compose (recs : list (list nat)) (i : nat) : nat :=
  match recs with
  | [] => i
  | r :: rest => compose rest (nth i r 0%nat)
  end.

Definition compose_labels (n : nat) (recs : list (list nat)) : list nat :=
  map (compose recs) (seq 0 n).

(** Modelled from the spec: the finalization of spec 4.3.  Stopping at a
    level after the first discards that level's optimization; stopping at
    level 0 keeps level 0's own result. *)
Definition finish (n : nat) (st : Level) (labs : list nat) (score : Q)
  : LouvainResult :=
  let final := match level st with
               | O => labs
               | S _ => compose_labels n (records st)
               end in
  {| labels_ := final;
     aggregate_graph_ := graph st;
     score_ := match level st with O => score | S _ => prev_score st end;
     n_clusters_ := Postprocessing.n_distinct final;
     iteration_count_ := level st |}.

(** Modelled from the spec: the transition rule of spec 4.3, from state
    [RUNNING(level st)]; [None] when [fuel] levels were not enough to reach
    [DONE]. *)
Fixpoint run (fuel : nat) (d : Louvain) (n : nat) (st : Level)
  : option LouvainResult :=
  match fuel with
  | O => None
  | S fuel' =>
      let (labs, score) :=
        optimize (algorithm d) (graph st) (row_weights st) (col_weights st) in
      let gain := score - prev_score st in
      if accepted (agg_tol d) (level st) gain
         && negb (budget_reached (max_agg_iter d) (level st))
      then
        let '(g', rw', cw') :=
          aggregate (graph st) (row_weights st) (col_weights st) labs in
        run fuel' d n
            {| level := S (level st);
               graph := g';
               row_weights := rw';
               col_weights := cw';
               prev_score := score;
               records := records st ++ [membership labs] |}
      else Some (finish n st labs score)
  end.

(** Modelled from the spec: the Louvain driver is the class [Louvain] of
    [sknetwork/clustering/louvain.py], whose source is not
    available.  Spec 4.3: at each level run the optimizer and compute the gain
    over the previous level's score; if this is level 0 or the gain is at
    least [agg_tol], and the level count has not reached [max_agg_iter]
    (negative: unbounded), aggregate with the new labeling, push a level
    record and go on; otherwise stop, keeping the previous level's labeling
    (level 0's own result when there is no previous level).  On completion
    the level records are composed, finest first, into one label per
    original node, and the number of aggregations, the number of distinct
    labels and the score are recorded.  With a single weight vector the
    same vector plays both roles. *)
Definition Louvain_fit (fuel : nat) (d : Louvain) (adjacency : csr_matrix)
           (weights : list Q) (secondary_weights : option (list Q))
  : option LouvainResult :=
  run fuel d (n_rows adjacency)
      {| level := 0;
         graph := adjacency;
         row_weights := weights;
         col_weights := match secondary_weights with
                        | Some f => f
                        | None => weights
                        end;
         prev_score := 0;
         records := [] |}.

(** *** Sample optimizers *)

(** Every node stays in its own cluster. *)
Definition singletons : Optimizer :=
  {| optimize := fun g _ _ => (seq 0 (n_rows g), 0) |}.

(** Node 0 alone, every other node in one cluster. *)
Definition head_and_rest : Optimizer :=
  {| optimize := fun g _ _ =>
       (map (fun i => if (i =? 0)%nat then 0%nat else 1%nat) (seq 0 (n_rows g)),
        0) |}.

Lemma singletons_labels_every_node : labels_every_node singletons.
Proof. intros g rw cw. simpl. apply length_seq. Qed.

Lemma head_and_rest_labels_every_node : labels_every_node head_and_rest.
Proof. intros g rw cw. simpl. now rewrite length_map, length_seq. Qed.

(** *** Facts about the driver *)

Lemma compose_labels_length n recs : length (compose_labels n recs) = n.
Proof. unfold compose_labels. now rewrite length_map, length_seq. Qed.

Lemma finish_n_clusters n st labs score :
  n_clusters_ (finish n st labs score)
  = Postprocessing.n_distinct (labels_ (finish n st labs score)).
Proof. reflexivity. Qed.

Lemma run_n_clusters fuel d n st r :
  run fuel d n st = Some r ->
  n_clusters_ r = Postprocessing.n_distinct (labels_ r).
Proof.
  revert st. induction fuel as [|fuel IH]; intros st; simpl; [discriminate|].
  destruct (optimize _ _ _ _) as [labs score].
  destruct (_ && _).
  - unfold aggregate. apply IH.
  - intros [= <-]. apply finish_n_clusters.
Qed.

Lemma run_labels_length fuel d n st r :
  labels_every_node (algorithm d) ->
  (level st = 0%nat -> n_rows (graph st) = n) ->
  run fuel d n st = Some r ->
  length (labels_ r) = n.
Proof.
  intros Hopt. revert st.
  induction fuel as [|fuel IH]; intros st Hst; simpl; [discriminate|].
  pose proof (Hopt (graph st) (row_weights st) (col_weights st)) as Hlen.
  destruct (optimize _ _ _ _) as [labs score]. simpl in Hlen.
  destruct (_ && _).
  - unfold aggregate. apply IH. simpl. discriminate.
  - intros [= <-]. unfold finish. simpl.
    destruct (level st) eqn:E.
    + rewrite Hlen. now apply Hst.
    + apply compose_labels_length.
Qed.

(** A successful run labels every node of the graph it was given and
    reports the number of distinct labels. *)
Lemma Louvain_fit_labels fuel d adjacency w sw r :
  labels_every_node (algorithm d) ->
  Louvain_fit fuel d adjacency w sw = Some r ->
  length (labels_ r) = n_rows adjacency /\
  n_clusters_ r = Postprocessing.n_distinct (labels_ r).
Proof.
  intros Hopt Hrun. unfold Louvain_fit in Hrun. split.
  - apply (run_labels_length _ _ _ _ _ Hopt) in Hrun; auto.
  - apply (run_n_clusters _ _ _ _ _ Hrun).
Qed.

(** With a non-negative budget the driver stops within [budget + 1]
    levels, whatever the optimizer does. *)
Lemma run_bounded d n st (k : nat) :
  (0 <= max_agg_iter d)%Z ->
  (max_agg_iter d <= Z.of_nat (level st + k))%Z ->
  exists r, run (S k) d n st = Some r.
Proof.
  intros Hpos. revert st.
  induction k as [|k IH]; intros st Hk; cbn [run];
    destruct (optimize _ _ _ _) as [labs score].
  - replace (budget_reached (max_agg_iter d) (level st)) with true.
    + rewrite andb_false_r. eauto.
    + symmetry. unfold budget_reached.
      apply andb_true_iff. split; apply Z.leb_le; lia.
  - destruct (_ && _); [|eauto].
    unfold aggregate. apply IH. simpl. lia.
Qed.

Lemma Louvain_fit_bounded d adjacency w sw :
  (0 <= max_agg_iter d)%Z ->
  exists r,
    Louvain_fit (S (Z.to_nat (max_agg_iter d))) d adjacency w sw = Some r.
Proof.
  intros Hpos. apply run_bounded; [assumption|]. simpl. lia.
Qed.

End Louvain.

(** ** Python values, exceptions and outcomes *)

Module Python.

Inductive exn : Type :=
| TypeError (msg : string)
| ValueError (msg : string)
| OtherError (msg : string).

Definition is_TypeError (e : exn) : bool :=
  match e with TypeError _ => true | _ => false end.

Definition is_ValueError (e : exn) : bool :=
  match e with ValueError _ => true | _ => false end.

(** A call that returns or raises. *)
Inductive result (A : Type) : Type :=
| Ok (a : A)
| Raise (e : exn).

Arguments Ok {A} a.
Arguments Raise {A} e.

Definition bind {A B : Type} (r : result A) (k : A -> result B) : result B :=
  match r with
  | Ok a => k a
  | Raise e => Raise e
  end.

(** A call that may also still be running when the fuel is spent. *)
Inductive outcome (A : Type) : Type :=
| Done (a : A)
| Raised (e : exn)
| Unfinished.

Arguments Done {A} a.
Arguments Raised {A} e.
Arguments Unfinished {A}.

(** The argument values the constructors inspect at run time.
    [PyOptimizer] is an instance of [Optimizer] (or of a subclass) and
    [PyObject] any other object, both of classes that keep the default
    equality and so equal no string.  [PyCustom] is an object whose class
    defines its own comparison, a numpy array for one: [truth_of_eq s] is
    how the test [if v == s] goes for it (true, false, or the exception
    raised by the comparison or by taking the truth value of its result),
    and [instance] tells whether it is an instance of [Optimizer]. *)
Inductive pyval : Type :=
| PyNone
| PyBool (b : bool)
| PyInt (z : Z)
| PyFloat (q : Q)
| PyStr (s : string)
| PyOptimizer (o : Louvain.Optimizer)
| PyObject (class_name : string)
| PyCustom (instance : option Louvain.Optimizer)
           (truth_of_eq : string -> result bool).

(** [type(v) == int]: only a plain [int]; [bool] is its own type. *)
Definition type_is_int (v : pyval) : bool :=
  match v with PyInt _ => true | _ => false end.

(** How the test [if v == s] goes, for a string literal [s]. *)
Definition eq_str (v : pyval) (s : string) : result bool :=
  match v with
  | PyStr t => Ok (String.eqb t s)
  | PyCustom _ truth_of_eq => truth_of_eq s
  | _ => Ok false
  end.

(** The optimizer [v] is, when [isinstance(v, Optimizer)]. *)
Definition as_optimizer (v : pyval) : option Louvain.Optimizer :=
  match v with
  | PyOptimizer o => Some o
  | PyCustom instance _ => instance
  | _ => None
  end.

(** [isinstance(v, Optimizer)]. *)
Definition is_optimizer (v : pyval) : bool :=
  match as_optimizer v with Some _ => true | None => false end.

(** [numpy.array([1, 2])]: comparing it gives an array with two elements,
    whose truth value is ambiguous. *)
Definition array_of_two : pyval :=
  PyCustom None
    (fun _ => Raise (ValueError
       "The truth value of an array with more than one element is ambiguous. Use a.any() or a.all()")).

(** [numpy.array(['default'])]: comparing it with a string gives an array
    with one element, true when the strings are equal. *)
Definition array_of_default : pyval :=
  PyCustom None (fun s => Ok (String.eqb "default" s)).

End Python.

Declare Scope py_scope.
Notation "x <- r ;; k" := (Python.bind r (fun x => k))
  (at level 61, r at next level, right associativity) : py_scope.

(** ** Bipartite graphs as graphs ([sknetwork.utils.adjacency_formats]) *)

Module AdjacencyFormats.
Import Sparse.

Definition shift_cols (k : nat) (row : list (nat * Q)) : list (nat * Q) :=
  map (fun e => (fst e + k, snd e)) row.

(** Modelled from the spec: [bipartite2directed] lives in
    [sknetwork/utils/adjacency_formats.py], whose source is not
    available.  Spec 4.4: a directed graph over [n+p] nodes, rows first, that
    only has edges in the row-to-column direction. *)
Definition bipartite2directed (b : csr_matrix) : csr_matrix :=
  {| n_cols := n_rows b + n_cols b;
     rows := map (shift_cols (n_rows b)) (rows b) ++ repeat [] (n_cols b) |}.

(** Modelled from the spec: [bipartite2undirected] lives in the same absent
    file.  Spec 4.4: the undirected graph over [n+p] nodes obtained by
    symmetrizing the biadjacency, rows occupying the first [n] ids and
    columns the last [p]. *)
Definition bipartite2undirected (b : csr_matrix) : csr_matrix :=
  {| n_cols := n_rows b + n_cols b;
     rows := map (shift_cols (n_rows b)) (rows b) ++ rows (transpose b) |}.

Example bipartite2directed_ex :
  bipartite2directed {| n_cols := 2; rows := [[stored 0 3; stored 1 5]] |}
  = {| n_cols := 3; rows := [[stored 1 3; stored 2 5]; []; []] |}.
Proof. reflexivity. Qed.

Example bipartite2undirected_ex :
  bipartite2undirected {| n_cols := 2; rows := [[stored 0 3; stored 1 5]] |}
  = {| n_cols := 3;
       rows := [[stored 1 3; stored 2 5]; [stored 0 3]; [stored 0 5]] |}.
Proof. reflexivity. Qed.

Lemma bipartite2directed_shape b :
  shape (bipartite2directed b) = (n_rows b + n_cols b, n_rows b + n_cols b).
Proof.
  unfold shape, n_rows, bipartite2directed; simpl.
  now rewrite length_app, length_map, repeat_length.
Qed.

Lemma bipartite2undirected_shape b :
  shape (bipartite2undirected b) = (n_rows b + n_cols b, n_rows b + n_cols b).
Proof.
  unfold shape, n_rows, bipartite2undirected, transpose; simpl.
  now rewrite length_app, !length_map, length_seq.
Qed.

Lemma triples_from_app i rs1 rs2 :
  triples_from i (rs1 ++ rs2)
  = triples_from i rs1 ++ triples_from (i + length rs1) rs2.
Proof.
  revert i. induction rs1 as [|r rs1 IH]; intros i; simpl.
  - now rewrite Nat.add_0_r.
  - rewrite IH, <- app_assoc. do 3 f_equal. lia.
Qed.

Lemma triples_from_empty_rows i k : triples_from i (repeat [] k) = [].
Proof. revert i. induction k as [|k IH]; intros i; simpl; auto. Qed.

Lemma triples_from_shifted i k rs t :
  In t (triples_from i (map (shift_cols k) rs)) ->
  (i <= t_row t < i + length rs)%nat /\ (k <= t_col t)%nat /\
  In (t_row t, t_col t - k, t_val t)%nat (triples_from i rs).
Proof.
  revert i. induction rs as [|r rs IH]; intros i; simpl; [tauto|].
  rewrite !in_app_iff. unfold shift_cols at 1. rewrite map_map, in_map_iff.
  intros [[e [<- He]]|Ht].
  - unfold t_row, t_col, t_val; simpl. split; [lia|]. split; [lia|].
    left. apply in_map_iff. exists e. split; [|exact He].
    f_equal. f_equal. lia.
  - destruct (IH (S i) Ht) as [Hr [Hc Hin]].
    split; [lia|]. split; [exact Hc|]. now right.
Qed.

(** Every stored edge of the directed construction leaves a row node and
    enters a column node. *)
Lemma bipartite2directed_edges b t :
  In t (triples (bipartite2directed b)) ->
  (t_row t < n_rows b)%nat /\ (n_rows b <= t_col t)%nat /\
  In (t_row t, t_col t - n_rows b, t_val t)%nat (triples b).
Proof.
  unfold triples, bipartite2directed; simpl.
  rewrite triples_from_app, triples_from_empty_rows, app_nil_r.
  intros Ht. apply triples_from_shifted in Ht.
  unfold n_rows. intuition.
Qed.

Lemma bipartite2directed_well_formed b :
  well_formed b -> well_formed (bipartite2directed b).
Proof.
  unfold well_formed, bipartite2directed; simpl. intros Hwf.
  apply Forall_app. split.
  - rewrite Forall_forall in *. intros r Hr.
    apply in_map_iff in Hr. destruct Hr as [r0 [<- Hr0]].
    specialize (Hwf r0 Hr0). rewrite Forall_forall in *.
    intros e He. apply in_map_iff in He. destruct He as [e0 [<- He0]].
    specialize (Hwf e0 He0). simpl. lia.
  - apply Forall_forall. intros r Hr. apply repeat_spec in Hr. subst.
    constructor.
Qed.

(** The directed construction carries exactly the weight of the
    biadjacency. *)
Lemma bipartite2directed_total b :
  total_weight (bipartite2directed b) == total_weight b.
Proof.
  unfold total_weight, data, bipartite2directed; simpl.
  rewrite concat_app, map_app, Qsum_app.
  assert (E : concat (repeat (@nil (nat * Q)) (n_cols b)) = []).
  { induction (n_cols b); simpl; auto. }
  rewrite E; simpl.
  assert (E' : map snd (concat (map (shift_cols (n_rows b)) (rows b)))
               = map snd (concat (rows b))).
  { induction (rows b) as [|r rs IH]; simpl; [reflexivity|].
    rewrite !map_app, IH. f_equal. unfold shift_cols. now rewrite map_map. }
  rewrite E'. ring.
Qed.

End AdjacencyFormats.

(** ** BiLouvain ([sknetwork/clustering/bilouvain.py]) *)

Module BiLouvain.
Import ListAux Sparse Python AdjacencyFormats.
Import Postprocessing.

Local Open Scope py_scope.

(** A null-model request: ['degree'], ['uniform'], ... or custom weights. *)
Inductive weight_spec : Type :=
| WStr (s : string)
| WArray (w : list Q).

(** The collaborators of [sknetwork.utils.checks] and
    [sknetwork.clustering.louvain] that the class calls and whose code is
    not available.  [check_random_state] may draw on the ambient
    [Entropy] (an unseeded generator); the defaults are those of the driver's
    own constructor. *)
Record Collaborators : Type := {
  Entropy : Type;
  RandomState : Type;
  check_random_state : Entropy -> pyval -> result RandomState;
  check_engine : string -> result string;
  check_format : csr_matrix -> result csr_matrix;
  check_probs : weight_spec -> csr_matrix -> result (list Q);
  GreedyModularity : Q -> Q -> string -> Louvain.Optimizer;
  louvain_agg_tol : Q;
  louvain_max_agg_iter : Z
}.

Section Model.

Variable X : Collaborators.

(** The object: constructor parameters and fitted attributes ([None] until
    [fit] has run). *)
Record BiLouvain : Type := mk_bilouvain {
  random_state : RandomState X;
  algorithm : Louvain.Optimizer;
  resolution : Q;
  tol : Q;
  agg_tol : Q;
  max_agg_iter : Z;
  engine : string;
  verbose : bool;
  labels_ : option (list nat);
  feature_labels_ : option (list nat);
  iteration_count_ : option nat;
  aggregate_graph_ : option csr_matrix;
  score_ : option Q;
  n_clusters_ : option nat
}.

Definition algorithm_error : exn :=
  TypeError "Algorithm must be 'auto' or a valid algorithm.".

Definition max_agg_iter_error : exn :=
  TypeError "The maximum number of iterations must be an integer.".

(** Lines 84-89: the optimizer selected by the [algorithm] argument. *)
Definition select_algorithm (algorithm_arg : pyval) (resolution_arg tol_arg : Q)
           (engine_arg : string) : result Louvain.Optimizer :=
  is_default <- eq_str algorithm_arg "default" ;;
  if is_default then
    e <- check_engine X engine_arg ;;
    Ok (GreedyModularity X resolution_arg tol_arg e)
  else
    match as_optimizer algorithm_arg with
    | Some o => Ok o
    | None => Raise algorithm_error
    end.

(** [BiLouvain.__init__]. *)
Definition __init__ (ambient : Entropy X)
           (engine_arg : string) (algorithm_arg : pyval)
           (resolution_arg tol_arg agg_tol_arg : Q) (max_agg_iter_arg : pyval)
           (random_state_arg : pyval) (verbose_arg : bool)
  : result BiLouvain :=
  rs <- check_random_state X ambient random_state_arg ;;
  alg <- select_algorithm algorithm_arg resolution_arg tol_arg engine_arg ;;
  match max_agg_iter_arg with
  | PyInt z =>
      e <- check_engine X engine_arg ;;
      Ok {| random_state := rs;
            algorithm := alg;
            resolution := resolution_arg;
            tol := tol_arg;
            agg_tol := agg_tol_arg;
            max_agg_iter := z;
            engine := e;
            verbose := verbose_arg;
            labels_ := None;
            feature_labels_ := None;
            iteration_count_ := None;
            aggregate_graph_ := None;
            score_ := None;
            n_clusters_ := None |}
  | _ => Raise max_agg_iter_error
  end.

(** [Louvain(algorithm=self.algorithm, verbose=self.verbose)]: the other
    parameters of the driver keep their defaults. *)
Definition new_louvain (self : BiLouvain) : Louvain.Louvain :=
  {| Louvain.algorithm := algorithm self;
     Louvain.agg_tol := louvain_agg_tol X;
     Louvain.max_agg_iter := louvain_max_agg_iter X;
     Louvain.verbose := verbose self |}.

(** What [fit] hands to [louvain.fit]. *)
Record DriverCall : Type := mk_call {
  call_adjacency : csr_matrix;
  call_weights : list Q;
  call_secondary_weights : option (list Q)
}.

Definition zeros (k : nat) : list Q := repeat 0%Q k.

(** Lines 129-140: graph and null-model vectors over the [n+p] nodes. *)
Definition driver_call (biadjacency : csr_matrix)
           (weights feature_weights : weight_spec) (force_undirected : bool)
  : result DriverCall :=
  let (n, p) := shape biadjacency in
  if force_undirected then
    let adjacency := bipartite2undirected biadjacency in
    samp_weights <- check_probs X weights biadjacency ;;
    feat_weights <- check_probs X feature_weights (transpose biadjacency) ;;
    w <- check_probs X (WArray (samp_weights ++ feat_weights)) adjacency ;;
    Ok {| call_adjacency := adjacency;
          call_weights := w;
          call_secondary_weights := None |}
  else
    let adjacency := bipartite2directed biadjacency in
    samp <- check_probs X weights biadjacency ;;
    feat <- check_probs X feature_weights (transpose biadjacency) ;;
    Ok {| call_adjacency := adjacency;
          call_weights := samp ++ zeros p;
          call_secondary_weights := Some (zeros n ++ feat) |}.

(** Lines 142-149: what [fit] stores once the driver has returned. *)
Definition store (self : BiLouvain) (n : nat) (sorted_cluster : bool)
           (adjacency : csr_matrix) (louvain : Louvain.LouvainResult)
  : BiLouvain :=
  let labels := Louvain.labels_ louvain in
  let labels := if sorted_cluster then reindex_clusters labels else labels in
  {| random_state := random_state self;
     algorithm := algorithm self;
     resolution := resolution self;
     tol := tol self;
     agg_tol := agg_tol self;
     max_agg_iter := max_agg_iter self;
     engine := engine self;
     verbose := verbose self;
     labels_ := Some (firstn n labels);
     feature_labels_ := Some (skipn n labels);
     iteration_count_ := Some (Louvain.iteration_count_ louvain);
     aggregate_graph_ :=
       Some (scale (Louvain.aggregate_graph_ louvain) (total_weight adjacency));
     score_ := score_ self;
     n_clusters_ := Some (Louvain.n_clusters_ louvain) |}.

(** [BiLouvain.fit].  [fuel] bounds the number of levels the driver may
    take. *)
Definition fit (fuel : nat) (self : BiLouvain) (biadjacency : csr_matrix)
           (weights feature_weights : weight_spec)
           (force_undirected sorted_cluster : bool) : outcome BiLouvain :=
  match check_format X biadjacency with
  | Raise e => Raised e
  | Ok biadjacency =>
      let (n, p) := shape biadjacency in
      let louvain := new_louvain self in
      match driver_call biadjacency weights feature_weights force_undirected with
      | Raise e => Raised e
      | Ok call =>
          match Louvain.Louvain_fit fuel louvain (call_adjacency call)
                                    (call_weights call)
                                    (call_secondary_weights call) with
          | None => Unfinished
          | Some fitted =>
              Done (store self n sorted_cluster (call_adjacency call) fitted)
          end
      end
  end.

(** *** What a completed [fit] went through *)

Lemma driver_call_adjacency b w fw fu call :
  driver_call b w fw fu = Ok call ->
  call_adjacency call
  = (if fu then bipartite2undirected b else bipartite2directed b).
Proof.
  unfold driver_call, shape. destruct fu.
  - destruct (check_probs X w b); simpl; [|discriminate].
    destruct (check_probs X fw (transpose b)); simpl; [|discriminate].
    destruct (check_probs X _ _); simpl; [|discriminate].
    now intros [= <-].
  - destruct (check_probs X w b); simpl; [|discriminate].
    destruct (check_probs X fw (transpose b)); simpl; [|discriminate].
    now intros [= <-].
Qed.

Lemma driver_call_n_rows b w fw fu call :
  driver_call b w fw fu = Ok call ->
  n_rows (call_adjacency call) = n_rows b + n_cols b.
Proof.
  intros H. rewrite (driver_call_adjacency _ _ _ _ _ H).
  destruct fu.
  - pose proof (bipartite2undirected_shape b) as E. now inversion E.
  - pose proof (bipartite2directed_shape b) as E. now inversion E.
Qed.

Lemma fit_Done fuel self b w fw fu sc s' :
  fit fuel self b w fw fu sc = Done s' ->
  exists b' call fitted,
    check_format X b = Ok b' /\
    driver_call b' w fw fu = Ok call /\
    Louvain.Louvain_fit fuel (new_louvain self) (call_adjacency call)
                        (call_weights call) (call_secondary_weights call)
    = Some fitted /\
    s' = store self (n_rows b') sc (call_adjacency call) fitted.
Proof.
  unfold fit. destruct (check_format X b) as [b'|e]; [|discriminate].
  unfold shape.
  destruct (driver_call b' w fw fu) as [call|e] eqn:Hcall; [|discriminate].
  destruct (Louvain.Louvain_fit _ _ _ _ _) as [fitted|] eqn:Hfit;
    [|discriminate].
  intros [= <-]. exists b', call, fitted. auto.
Qed.

(** The label vector [fit] splits: the driver's, reindexed on request. *)
Definition split_vector (sorted_cluster : bool) (raw : list nat) : list nat :=
  if sorted_cluster then reindex_clusters raw else raw.

Lemma split_vector_length sc raw : length (split_vector sc raw) = length raw.
Proof. destruct sc; simpl; [apply reindex_clusters_length | reflexivity]. Qed.

Lemma split_vector_partition sc raw i j :
  i < length raw -> j < length raw ->
  (nth i (split_vector sc raw) 0 = nth j (split_vector sc raw) 0 <->
   nth i raw 0 = nth j raw 0).
Proof.
  destruct sc; simpl; [|tauto].
  apply reindex_clusters_partition.
Qed.

(** *** The constructor *)

Lemma select_algorithm_default alg res tl eng e :
  eq_str alg "default" = Ok true -> check_engine X eng = Ok e ->
  select_algorithm alg res tl eng = Ok (GreedyModularity X res tl e).
Proof. unfold select_algorithm. intros -> ->. reflexivity. Qed.

Lemma select_algorithm_instance alg res tl eng o :
  eq_str alg "default" = Ok false -> as_optimizer alg = Some o ->
  select_algorithm alg res tl eng = Ok o.
Proof. unfold select_algorithm. intros -> ->. reflexivity. Qed.

Lemma select_algorithm_invalid alg res tl eng :
  eq_str alg "default" = Ok false -> is_optimizer alg = false ->
  select_algorithm alg res tl eng = Raise algorithm_error.
Proof.
  unfold select_algorithm, is_optimizer. intros -> H. simpl.
  destruct (as_optimizer alg); [discriminate | reflexivity].
Qed.

Lemma select_algorithm_raises alg res tl eng err :
  eq_str alg "default" = Raise err ->
  select_algorithm alg res tl eng = Raise err.
Proof. unfold select_algorithm. intros ->. reflexivity. Qed.

Lemma select_algorithm_outcome alg res tl eng is_default :
  eq_str alg "default" = Ok is_default ->
  (is_default = true -> exists e, check_engine X eng = Ok e) ->
  (exists o, select_algorithm alg res tl eng = Ok o
             /\ (is_default = true \/ is_optimizer alg = true))
  \/ (select_algorithm alg res tl eng = Raise algorithm_error
      /\ is_default = false /\ is_optimizer alg = false).
Proof.
  intros Heq Heng. unfold select_algorithm, is_optimizer. rewrite Heq. simpl.
  destruct is_default.
  - destruct (Heng eq_refl) as [e ->]. simpl. left. eauto.
  - destruct (as_optimizer alg); [left; eauto | right; auto].
Qed.

(** C5, as the code has it.  The random state is checked first, then the
    algorithm is selected, and only then is [max_agg_iter] looked at.  So
    when the random state passes its check, the test
    [algorithm == 'default'] gives a truth value, and the engine passes its
    check in case that value is true: a [max_agg_iter] whose type is not
    [int] makes construction raise a [TypeError], the one about
    [max_agg_iter] when the algorithm is valid and the one about the
    algorithm otherwise (no object is built, and the constructor takes no
    graph or matrix at all).  For an [int], the other arguments being
    valid, construction succeeds and stores that integer unchanged. *)
Theorem init_checks_max_agg_iter
        ambient res tl atol rs vb r0
        eng1 alg1 is_default1 mai1
        eng2 alg2 e2 z :
  check_random_state X ambient rs = Ok r0 ->
  eq_str alg1 "default" = Ok is_default1 ->
  (is_default1 = true -> exists e1, check_engine X eng1 = Ok e1) ->
  type_is_int mai1 = false ->
  (eq_str alg2 "default" = Ok true
   \/ (eq_str alg2 "default" = Ok false /\ is_optimizer alg2 = true)) ->
  check_engine X eng2 = Ok e2 ->
  (exists err,
     __init__ ambient eng1 alg1 res tl atol mai1 rs vb = Raise err
     /\ is_TypeError err = true
     /\ ((is_default1 = true \/ is_optimizer alg1 = true) ->
         err = max_agg_iter_error)
     /\ (is_default1 = false -> is_optimizer alg1 = false ->
         err = algorithm_error))
  /\ (exists s,
        __init__ ambient eng2 alg2 res tl atol (PyInt z) rs vb = Ok s
        /\ max_agg_iter s = z).
Proof.
  intros Hrs Heq1 Heng1 Hint Halg2 Heng2. unfold __init__. rewrite Hrs. simpl.
  split.
  - destruct (select_algorithm_outcome alg1 res tl eng1 is_default1 Heq1 Heng1)
      as [(o & -> & Hvalid)|(-> & Hd & Ho)]; simpl.
    + exists max_agg_iter_error.
      split; [destruct mai1; try reflexivity; discriminate|].
      split; [reflexivity|]. split; [reflexivity|].
      intros Hd Ho. destruct Hvalid; congruence.
    + exists algorithm_error.
      split; [reflexivity|]. split; [reflexivity|].
      split; [|reflexivity].
      intros [H|H]; congruence.
  - assert (Hsel : exists o, select_algorithm alg2 res tl eng2 = Ok o).
    { destruct Halg2 as [H|[H Ho]].
      - rewrite (select_algorithm_default alg2 res tl eng2 e2 H Heng2). eauto.
      - unfold is_optimizer in Ho.
        destruct (as_optimizer alg2) as [o|] eqn:E; [|discriminate].
        rewrite (select_algorithm_instance alg2 res tl eng2 o H E). eauto. }
    destruct Hsel as [o ->]. simpl. rewrite Heng2. simpl.
    eexists. split; reflexivity.
Qed.

(** C9, as the code has it.  When the random state passes its check:
    an [algorithm] for which the test [algorithm == 'default'] is false and
    which is no [Optimizer] makes construction raise the algorithm
    [TypeError], whatever the other arguments (the constructor takes no
    graph); with a valid engine and an [int] for [max_agg_iter], an
    [Optimizer] instance for which the test is false is stored as the
    algorithm, and an argument for which the test is true, the string
    ['default'] for one, stores the greedy modularity optimizer built from
    [resolution], [tol] and the checked engine; an argument whose test
    raises makes construction raise that exception. *)
Theorem init_checks_algorithm
        ambient res tl atol rs vb r0
        bad eng1 mai1
        inst o dflt eng e z
        odd err eng4 mai4 :
  check_random_state X ambient rs = Ok r0 ->
  eq_str bad "default" = Ok false -> is_optimizer bad = false ->
  eq_str inst "default" = Ok false -> as_optimizer inst = Some o ->
  eq_str dflt "default" = Ok true ->
  check_engine X eng = Ok e ->
  eq_str odd "default" = Raise err ->
  (__init__ ambient eng1 bad res tl atol mai1 rs vb = Raise algorithm_error
   /\ is_TypeError algorithm_error = true)
  /\ (exists s,
        __init__ ambient eng inst res tl atol (PyInt z) rs vb = Ok s
        /\ algorithm s = o)
  /\ (exists s,
        __init__ ambient eng dflt res tl atol (PyInt z) rs vb = Ok s
        /\ algorithm s = GreedyModularity X res tl e)
  /\ __init__ ambient eng4 odd res tl atol mai4 rs vb = Raise err.
Proof.
  intros Hrs Hbad1 Hbad2 Hinst1 Hinst2 Hdflt Heng Hodd.
  unfold __init__. rewrite Hrs. simpl. split; [|split; [|split]].
  - rewrite (select_algorithm_invalid bad res tl eng1 Hbad1 Hbad2).
    split; reflexivity.
  - rewrite (select_algorithm_instance inst res tl eng o Hinst1 Hinst2).
    simpl. rewrite Heng. simpl. eexists. split; reflexivity.
  - rewrite (select_algorithm_default dflt res tl eng e Hdflt Heng).
    simpl. rewrite Heng. simpl. eexists. split; reflexivity.
  - rewrite (select_algorithm_raises odd res tl eng4 err Hodd). reflexivity.
Qed.

(** *** [fit] *)

Lemma firstn_skipn_lengths (l : list nat) n p :
  length l = n + p ->
  length (firstn n l) = n /\ length (skipn n l) = p
  /\ firstn n l ++ skipn n l = l.
Proof.
  intros H. rewrite length_firstn, length_skipn, firstn_skipn.
  repeat split; lia.
Qed.

(** C2, as the code has it.  After a completed [fit] on a validated
    biadjacency with [n] rows and [p] columns, with an optimizer that labels
    every node: [labels_] has length [n], [feature_labels_] has length [p],
    and [labels_] followed by [feature_labels_] is the vector that was split,
    namely the driver's label vector when [sorted_cluster] is [False] and its
    reindexed image when [sorted_cluster] is [True]; either way it induces
    the partition of the driver's vector. *)
Theorem fit_split_consistent fuel self b b' w fw fu sc s' :
  Louvain.labels_every_node (algorithm self) ->
  check_format X b = Ok b' ->
  fit fuel self b w fw fu sc = Done s' ->
  exists call fitted rows_l cols_l,
    driver_call b' w fw fu = Ok call /\
    Louvain.Louvain_fit fuel (new_louvain self) (call_adjacency call)
                        (call_weights call) (call_secondary_weights call)
    = Some fitted /\
    labels_ s' = Some rows_l /\ feature_labels_ s' = Some cols_l /\
    length rows_l = n_rows b' /\ length cols_l = n_cols b' /\
    rows_l ++ cols_l
    = (if sc then reindex_clusters (Louvain.labels_ fitted)
       else Louvain.labels_ fitted) /\
    (forall i j, i < n_rows b' + n_cols b' -> j < n_rows b' + n_cols b' ->
       (nth i (rows_l ++ cols_l) 0 = nth j (rows_l ++ cols_l) 0 <->
        nth i (Louvain.labels_ fitted) 0 = nth j (Louvain.labels_ fitted) 0)).
Proof.
  intros Hopt Hfmt Hfit.
  destruct (fit_Done _ _ _ _ _ _ _ _ Hfit)
    as (b'' & call & fitted & Hfmt' & Hcall & Hrun & ->).
  rewrite Hfmt in Hfmt'. injection Hfmt' as <-.
  destruct (Louvain.Louvain_fit_labels fuel (new_louvain self) _ _ _ _ Hopt Hrun)
    as [Hlen _].
  rewrite (driver_call_n_rows _ _ _ _ _ Hcall) in Hlen.
  pose proof (split_vector_length sc (Louvain.labels_ fitted)) as Hlen'.
  rewrite Hlen in Hlen'.
  destruct (firstn_skipn_lengths _ _ _ Hlen') as (H1 & H2 & H3).
  exists call, fitted. eexists. eexists.
  split; [exact Hcall|]. split; [exact Hrun|].
  split; [reflexivity|]. split; [reflexivity|].
  split; [exact H1|]. split; [exact H2|].
  split; [exact H3|].
  intros i j Hi Hj. fold (split_vector sc (Louvain.labels_ fitted)).
  rewrite H3. apply split_vector_partition; lia.
Qed.

(** C3.  After a completed [fit], [aggregate_graph_] is the driver's
    aggregate graph with every entry multiplied by the total edge weight of
    the graph built over the [n+p] nodes: the undirected symmetrization when
    [force_undirected] is [True], the directed construction otherwise. *)
Theorem fit_rescales_aggregate fuel self b w fw fu sc s' :
  fit fuel self b w fw fu sc = Done s' ->
  exists b' call fitted agg,
    check_format X b = Ok b' /\
    driver_call b' w fw fu = Ok call /\
    call_adjacency call
    = (if fu then bipartite2undirected b' else bipartite2directed b') /\
    shape (call_adjacency call)
    = (n_rows b' + n_cols b', n_rows b' + n_cols b') /\
    Louvain.Louvain_fit fuel (new_louvain self) (call_adjacency call)
                        (call_weights call) (call_secondary_weights call)
    = Some fitted /\
    aggregate_graph_ s' = Some agg /\
    agg = scale (Louvain.aggregate_graph_ fitted)
                (total_weight (call_adjacency call)) /\
    (forall i j,
       (entry agg i j
        == entry (Louvain.aggregate_graph_ fitted) i j
           * total_weight (call_adjacency call))%Q).
Proof.
  intros Hfit.
  destruct (fit_Done _ _ _ _ _ _ _ _ Hfit)
    as (b' & call & fitted & Hfmt & Hcall & Hrun & ->).
  exists b', call, fitted. eexists.
  split; [exact Hfmt|]. split; [exact Hcall|].
  split; [exact (driver_call_adjacency _ _ _ _ _ Hcall)|].
  split.
  { rewrite (driver_call_adjacency _ _ _ _ _ Hcall). destruct fu;
      [apply bipartite2undirected_shape | apply bipartite2directed_shape]. }
  split; [exact Hrun|]. split; [reflexivity|]. split; [reflexivity|].
  intros i j. apply entry_scale.
Qed.

(** C4.  With [force_undirected = False], on a validated biadjacency with
    [n] rows and [p] columns whose weight requests pass [check_probs]:
    [fit] is the driver's run, post-processed, on the directed construction
    over [n+p] nodes, with row-side weights the validated row probabilities
    followed by [p] zeros and column-side weights [n] zeros followed by the
    validated column probabilities; every stored edge of that graph goes from
    the row block into the column block. *)
Theorem fit_directed_call fuel self b b' w fw sc samp feat :
  check_format X b = Ok b' ->
  check_probs X w b' = Ok samp ->
  check_probs X fw (transpose b') = Ok feat ->
  let adjacency := bipartite2directed b' in
  let n := n_rows b' in
  let p := n_cols b' in
  driver_call b' w fw false
  = Ok {| call_adjacency := adjacency;
          call_weights := samp ++ zeros p;
          call_secondary_weights := Some (zeros n ++ feat) |}
  /\ fit fuel self b w fw false sc
     = match Louvain.Louvain_fit fuel (new_louvain self) adjacency
                                 (samp ++ zeros p) (Some (zeros n ++ feat)) with
       | Some fitted => Done (store self n sc adjacency fitted)
       | None => Unfinished
       end
  /\ shape adjacency = (n + p, n + p)
  /\ (forall t, In t (triples adjacency) -> t_row t < n /\ n <= t_col t)
  /\ (well_formed b' -> well_formed adjacency)
  /\ skipn (length samp) (samp ++ zeros p) = repeat 0%Q p
  /\ firstn n (zeros n ++ feat) = repeat 0%Q n.
Proof.
  intros Hfmt Hs Hf adjacency n p.
  assert (Hcall : driver_call b' w fw false
                  = Ok {| call_adjacency := adjacency;
                          call_weights := samp ++ zeros p;
                          call_secondary_weights := Some (zeros n ++ feat) |}).
  { unfold driver_call, shape. rewrite Hs. simpl. rewrite Hf. reflexivity. }
  split; [exact Hcall|].
  split.
  { unfold fit. rewrite Hfmt. unfold shape. rewrite Hcall. reflexivity. }
  split; [apply bipartite2directed_shape|].
  split.
  { intros t Ht. destruct (bipartite2directed_edges b' t Ht) as (H1 & H2 & _).
    auto. }
  split; [apply bipartite2directed_well_formed|].
  split.
  - rewrite skipn_app, skipn_all, Nat.sub_diag. reflexivity.
  - rewrite firstn_app. unfold zeros. rewrite repeat_length, Nat.sub_diag.
    simpl. rewrite app_nil_r. apply firstn_all2. now rewrite repeat_length.
Qed.

(** C6.  After a completed [fit] with [sorted_cluster = True] on a validated
    [n]-by-[p] biadjacency, with an optimizer that labels every node: the
    [n] row nodes and the [p] column nodes each carry one label, and the
    values occurring in [labels_] followed by [feature_labels_] are exactly
    [0 .. n_clusters_ - 1]. *)
Theorem fit_sorted_labels_dense fuel self b b' w fw fu s' :
  Louvain.labels_every_node (algorithm self) ->
  check_format X b = Ok b' ->
  fit fuel self b w fw fu true = Done s' ->
  exists rows_l cols_l k,
    labels_ s' = Some rows_l /\ feature_labels_ s' = Some cols_l /\
    n_clusters_ s' = Some k /\
    length rows_l = n_rows b' /\ length cols_l = n_cols b' /\
    (forall v, In v (rows_l ++ cols_l) <-> v < k).
Proof.
  intros Hopt Hfmt Hfit.
  destruct (fit_Done _ _ _ _ _ _ _ _ Hfit)
    as (b'' & call & fitted & Hfmt' & Hcall & Hrun & ->).
  rewrite Hfmt in Hfmt'. injection Hfmt' as <-.
  destruct (Louvain.Louvain_fit_labels fuel (new_louvain self) _ _ _ _ Hopt Hrun)
    as [Hlen Hk].
  rewrite (driver_call_n_rows _ _ _ _ _ Hcall) in Hlen.
  pose proof (reindex_clusters_length (Louvain.labels_ fitted)) as Hlen'.
  rewrite Hlen in Hlen'.
  destruct (firstn_skipn_lengths _ _ _ Hlen') as (H1 & H2 & H3).
  eexists. eexists. eexists.
  split; [reflexivity|]. split; [reflexivity|]. split; [reflexivity|].
  split; [exact H1|]. split; [exact H2|].
  intros v. rewrite H3, Hk. apply reindex_clusters_dense.
Qed.

(** With a non-negative default budget in the driver, [fit] completes (or
    raises) within [budget + 1] levels, whatever the optimizer does. *)
Lemma fit_completes_within_budget self b w fw fu sc :
  (0 <= louvain_max_agg_iter X)%Z ->
  fit (S (Z.to_nat (louvain_max_agg_iter X))) self b w fw fu sc <> Unfinished.
Proof.
  intros Hpos. unfold fit.
  destruct (check_format X b) as [b'|e]; [|discriminate].
  unfold shape.
  destruct (driver_call b' w fw fu) as [call|e]; [|discriminate].
  destruct (Louvain.Louvain_fit_bounded (new_louvain self)
              (call_adjacency call) (call_weights call)
              (call_secondary_weights call) Hpos) as [r Hr].
  simpl in Hr. rewrite Hr. discriminate.
Qed.

Lemma init_fields ambient eng alg res tl atol mai rs vb s :
  __init__ ambient eng alg res tl atol mai rs vb = Ok s ->
  select_algorithm alg res tl eng = Ok (algorithm s)
  /\ verbose s = vb /\ score_ s = None /\ labels_ s = None.
Proof.
  unfold __init__.
  destruct (check_random_state X ambient rs) as [r|e]; simpl; [|discriminate].
  destruct (select_algorithm alg res tl eng) as [o|e]; simpl; [|discriminate].
  destruct mai; try discriminate.
  destruct (check_engine X eng) as [e|e]; simpl; [|discriminate].
  intros [= <-]. simpl. auto.
Qed.

End Model.

Arguments random_state {X} _.
Arguments algorithm {X} _.
Arguments max_agg_iter {X} _.
Arguments labels_ {X} _.
Arguments feature_labels_ {X} _.
Arguments iteration_count_ {X} _.
Arguments aggregate_graph_ {X} _.
Arguments score_ {X} _.
Arguments n_clusters_ {X} _.
Arguments new_louvain {X} self.
Arguments store {X} self n sorted_cluster adjacency louvain.
Arguments fit {X} fuel self biadjacency weights feature_weights
  force_undirected sorted_cluster.

(** *** A sample environment and sample runs *)

Definition sample_check_random_state (ambient : nat) (v : pyval) : result nat :=
  match v with
  | PyNone => Ok ambient
  | PyInt z => Ok (Z.to_nat z)
  | _ => Raise (TypeError "random_state must be None or an int.")
  end.

Definition sample_check_engine (e : string) : result string :=
  if String.eqb e "default" then Ok "python"%string
  else if String.eqb e "python" || String.eqb e "numba" then Ok e
  else Raise (ValueError "Engine must be default, python or numba.").

Definition sample_check_probs (spec : weight_spec) (m : csr_matrix)
  : result (list Q) :=
  match spec with
  | WArray w =>
      if length w =? n_rows m then Ok w
      else Raise (ValueError "Dimensions mismatch.")
  | WStr name =>
      if String.eqb name "uniform"
      then Ok (repeat (1 / inject_Z (Z.of_nat (n_rows m)))%Q (n_rows m))
      else if String.eqb name "degree"
      then Ok (map (fun r => (Qsum (map snd r) / total_weight m)%Q) (rows m))
      else Raise (ValueError "Unknown weights.")
  end.

(** Stand-ins for the collaborators, to run the model on concrete inputs. *)
Definition sample : Collaborators :=
  {| Entropy := nat;
     RandomState := nat;
     check_random_state := sample_check_random_state;
     check_engine := sample_check_engine;
     check_format := fun m => Ok m;
     check_probs := sample_check_probs;
     GreedyModularity := fun _ _ _ => Louvain.singletons;
     louvain_agg_tol := (1 # 1000)%Q;
     louvain_max_agg_iter := (-1)%Z |}.

(** One row node joined to two column nodes. *)
Definition star : csr_matrix :=
  {| n_cols := 2; rows := [[stored 0 1; stored 1 1]] |}.

Definition star_weights : weight_spec := WArray [1%Q].
Definition star_feature_weights : weight_spec := WArray [(1 # 2)%Q; (1 # 2)%Q].

(** [BiLouvain(algorithm=head_and_rest)] as the constructor leaves it. *)
Definition fresh (seed : nat) : BiLouvain sample :=
  {| random_state := seed : RandomState sample;
     algorithm := Louvain.head_and_rest;
     resolution := 1%Q;
     tol := (1 # 1000)%Q;
     agg_tol := (1 # 1000)%Q;
     max_agg_iter := (-1)%Z;
     engine := "python"%string;
     verbose := false;
     labels_ := None;
     feature_labels_ := None;
     iteration_count_ := None;
     aggregate_graph_ := None;
     score_ := None;
     n_clusters_ := None |}.

Example init_fresh :
  __init__ sample 7 "default" (PyOptimizer Louvain.head_and_rest)
       1%Q (1 # 1000)%Q (1 # 1000)%Q (PyInt (-1)) PyNone false
  = Ok (fresh 7).
Proof. reflexivity. Qed.

Example init_rejects_bool_budget :
  __init__ sample 7 "default" (PyStr "default")
       1%Q (1 # 1000)%Q (1 # 1000)%Q (PyBool true) PyNone false
  = Raise (max_agg_iter_error).
Proof. reflexivity. Qed.

Example init_rejects_float_budget :
  __init__ sample 7 "default" (PyStr "default")
       1%Q (1 # 1000)%Q (1 # 1000)%Q (PyFloat 3%Q) PyNone false
  = Raise (max_agg_iter_error).
Proof. reflexivity. Qed.

Example init_rejects_algorithm_name :
  __init__ sample 7 "default" (PyStr "auto")
       1%Q (1 # 1000)%Q (1 # 1000)%Q (PyInt 3) PyNone false
  = Raise (algorithm_error).
Proof. reflexivity. Qed.

(** The driver's run on the directed construction of [star]. *)
Definition star_fitted : Louvain.LouvainResult :=
  {| Louvain.labels_ := [0; 1; 1];
     Louvain.aggregate_graph_ :=
       {| n_cols := 2;
          rows := [ [stored 0 (Qsum []); stored 1 (Qsum [1%Q; 1%Q])];
                    [stored 0 (Qsum []); stored 1 (Qsum [])] ] |};
     Louvain.score_ := 0%Q;
     Louvain.n_clusters_ := 2;
     Louvain.iteration_count_ := 1 |}.

Example star_driver_run :
  Louvain.Louvain_fit 3 (new_louvain (fresh 7))
                      (bipartite2directed star)
                      ([1%Q] ++ zeros 2) (Some (zeros 1 ++ [(1#2)%Q; (1#2)%Q]))
  = Some star_fitted.
Proof. reflexivity. Qed.

Example star_fit_sorted :
  fit 3 (fresh 7) star star_weights star_feature_weights false true
  = Done (store (fresh 7) 1 true (bipartite2directed star) star_fitted).
Proof. reflexivity. Qed.

Example star_fit_unsorted :
  fit 3 (fresh 7) star star_weights star_feature_weights false false
  = Done (store (fresh 7) 1 false (bipartite2directed star) star_fitted).
Proof. reflexivity. Qed.

(** With [sorted_cluster = True] the split pieces put back together are the
    reindexed labels [1; 0; 0], not the driver's own vector [0; 1; 1]. *)
Lemma fit_split_not_driver_vector :
  exists s' fitted,
    fit 3 (fresh 7) star star_weights star_feature_weights false true
    = Done s' /\
    Louvain.Louvain_fit 3 (new_louvain (fresh 7))
                        (bipartite2directed star)
                        ([1%Q] ++ zeros 2)
                        (Some (zeros 1 ++ [(1#2)%Q; (1#2)%Q]))
    = Some fitted /\
    Louvain.labels_ fitted = [0; 1; 1] /\
    labels_ s' = Some [1] /\
    feature_labels_ s' = Some [0; 0] /\
    [1] ++ [0; 0] <> Louvain.labels_ fitted.
Proof.
  exists (store (fresh 7) 1 true (bipartite2directed star) star_fitted),
         star_fitted.
  split; [reflexivity|]. split; [reflexivity|]. split; [reflexivity|].
  split; [reflexivity|]. split; [reflexivity|].
  simpl. discriminate.
Qed.

(** The split of the labels of [star], sorted. *)
Lemma fit_split_consistent_witness :
  let X := sample in
  let self := fresh 7 in
  let s' := store (fresh 7) 1 true (bipartite2directed star) star_fitted in
  (Louvain.labels_every_node (algorithm self) /\
   check_format X star = Ok star /\
   fit 3 self star star_weights star_feature_weights false true = Done s') /\
  exists call fitted rows_l cols_l,
    driver_call X star star_weights star_feature_weights false = Ok call /\
    Louvain.Louvain_fit 3 (new_louvain self) (call_adjacency call)
                        (call_weights call) (call_secondary_weights call)
    = Some fitted /\
    labels_ s' = Some rows_l /\ feature_labels_ s' = Some cols_l /\
    length rows_l = n_rows star /\ length cols_l = n_cols star /\
    rows_l ++ cols_l = reindex_clusters (Louvain.labels_ fitted) /\
    (forall i j, i < n_rows star + n_cols star ->
                 j < n_rows star + n_cols star ->
       (nth i (rows_l ++ cols_l) 0 = nth j (rows_l ++ cols_l) 0 <->
        nth i (Louvain.labels_ fitted) 0 = nth j (Louvain.labels_ fitted) 0)).
Proof.
  cbv zeta. split.
  - split; [exact Louvain.head_and_rest_labels_every_node|].
    split; reflexivity.
  - apply (fit_split_consistent sample 3 (fresh 7) star star
             star_weights star_feature_weights false true).
    + exact Louvain.head_and_rest_labels_every_node.
    + reflexivity.
    + reflexivity.
Defined.

(** The rescaled aggregate graph of [star]. *)
Lemma fit_rescales_aggregate_witness :
  let X := sample in
  let self := fresh 7 in
  let s' := store (fresh 7) 1 true (bipartite2directed star) star_fitted in
  fit 3 self star star_weights star_feature_weights false true = Done s' /\
  exists b' call fitted agg,
    check_format X star = Ok b' /\
    driver_call X b' star_weights star_feature_weights false = Ok call /\
    call_adjacency call = bipartite2directed b' /\
    shape (call_adjacency call)
    = (n_rows b' + n_cols b', n_rows b' + n_cols b') /\
    Louvain.Louvain_fit 3 (new_louvain self) (call_adjacency call)
                        (call_weights call) (call_secondary_weights call)
    = Some fitted /\
    aggregate_graph_ s' = Some agg /\
    agg = scale (Louvain.aggregate_graph_ fitted)
                (total_weight (call_adjacency call)) /\
    (forall i j,
       (entry agg i j
        == entry (Louvain.aggregate_graph_ fitted) i j
           * total_weight (call_adjacency call))%Q).
Proof.
  cbv zeta. split; [reflexivity|].
  apply (fit_rescales_aggregate sample 3 (fresh 7) star
           star_weights star_feature_weights false true).
  reflexivity.
Defined.

(** The driver call built for [star] with custom weights. *)
Lemma fit_directed_call_witness :
  let X := sample in
  let self := fresh 7 in
  let adjacency := bipartite2directed star in
  let samp := [1%Q] in
  let feat := [(1#2)%Q; (1#2)%Q] in
  (check_format X star = Ok star /\
   check_probs X star_weights star = Ok samp /\
   check_probs X star_feature_weights (transpose star) = Ok feat) /\
  (driver_call X star star_weights star_feature_weights false
   = Ok {| call_adjacency := adjacency;
           call_weights := samp ++ zeros 2;
           call_secondary_weights := Some (zeros 1 ++ feat) |}
   /\ fit 3 self star star_weights star_feature_weights false true
      = match Louvain.Louvain_fit 3 (new_louvain self) adjacency
                                  (samp ++ zeros 2) (Some (zeros 1 ++ feat)) with
        | Some fitted => Done (store self 1 true adjacency fitted)
        | None => Unfinished
        end
   /\ shape adjacency = (1 + 2, 1 + 2)
   /\ (forall t, In t (triples adjacency) -> t_row t < 1 /\ 1 <= t_col t)
   /\ (well_formed star -> well_formed adjacency)
   /\ skipn (length samp) (samp ++ zeros 2) = repeat 0%Q 2
   /\ firstn 1 (zeros 1 ++ feat) = repeat 0%Q 1).
Proof.
  cbv zeta. split.
  - repeat split; reflexivity.
  - apply (fit_directed_call sample 3 (fresh 7) star star
             star_weights star_feature_weights true
             [1%Q] [(1#2)%Q; (1#2)%Q]); reflexivity.
Defined.

(** The sorted labels of [star] are exactly [0] and [1]. *)
Lemma fit_sorted_labels_dense_witness :
  let X := sample in
  let self := fresh 7 in
  let s' := store (fresh 7) 1 true (bipartite2directed star) star_fitted in
  (Louvain.labels_every_node (algorithm self) /\
   check_format X star = Ok star /\
   fit 3 self star star_weights star_feature_weights false true = Done s') /\
  exists rows_l cols_l k,
    labels_ s' = Some rows_l /\ feature_labels_ s' = Some cols_l /\
    n_clusters_ s' = Some k /\
    length rows_l = n_rows star /\ length cols_l = n_cols star /\
    (forall v, In v (rows_l ++ cols_l) <-> v < k).
Proof.
  cbv zeta. split.
  - split; [exact Louvain.head_and_rest_labels_every_node|].
    split; reflexivity.
  - apply (fit_sorted_labels_dense sample 3 (fresh 7) star star
             star_weights star_feature_weights false).
    + exact Louvain.head_and_rest_labels_every_node.
    + reflexivity.
    + reflexivity.
Defined.

(** With [algorithm = 'default'] and an engine the check refuses, a [bool]
    passed as [max_agg_iter] is never looked at: the engine's [ValueError]
    comes first. *)
Lemma init_engine_error_precedes_budget :
  type_is_int (PyBool true) = false
  /\ __init__ sample 7 "fortran" (PyStr "default")
              1%Q (1 # 1000)%Q (1 # 1000)%Q (PyBool true) PyNone false
     = Raise (ValueError "Engine must be default, python or numba.")
  /\ is_TypeError (ValueError "Engine must be default, python or numba.")
     = false.
Proof. repeat split. Qed.

(** A [bool] as [max_agg_iter] next to the default algorithm, and an [int]
    next to a supplied optimizer. *)
Lemma init_checks_max_agg_iter_witness :
  let run := fun eng alg mai =>
    __init__ sample 7 eng alg 1%Q (1 # 1000)%Q (1 # 1000)%Q mai PyNone false in
  (check_random_state sample 7 PyNone = Ok 7
   /\ eq_str (PyStr "default") "default" = Ok true
   /\ (true = true -> exists e1, check_engine sample "numba" = Ok e1)
   /\ type_is_int (PyBool true) = false
   /\ (eq_str (PyOptimizer Louvain.head_and_rest) "default" = Ok true
       \/ (eq_str (PyOptimizer Louvain.head_and_rest) "default" = Ok false
           /\ is_optimizer (PyOptimizer Louvain.head_and_rest) = true))
   /\ check_engine sample "default" = Ok "python"%string)
  /\ (exists err,
        run "numba"%string (PyStr "default") (PyBool true) = Raise err
        /\ is_TypeError err = true
        /\ ((true = true \/ is_optimizer (PyStr "default") = true) ->
            err = max_agg_iter_error)
        /\ (true = false -> is_optimizer (PyStr "default") = false ->
            err = algorithm_error))
  /\ (exists s,
        run "default"%string (PyOptimizer Louvain.head_and_rest) (PyInt 4)
        = Ok s
        /\ max_agg_iter s = 4%Z).
Proof.
  cbv zeta.
  assert (Heng : true = true -> exists e1, check_engine sample "numba" = Ok e1)
    by (intros _; exists "numba"%string; reflexivity).
  assert (Halg :
    eq_str (PyOptimizer Louvain.head_and_rest) "default" = Ok true
    \/ (eq_str (PyOptimizer Louvain.head_and_rest) "default" = Ok false
        /\ is_optimizer (PyOptimizer Louvain.head_and_rest) = true))
    by (right; split; reflexivity).
  split.
  - split; [reflexivity|]. split; [reflexivity|]. split; [exact Heng|].
    split; [reflexivity|]. split; [exact Halg | reflexivity].
  - apply (init_checks_max_agg_iter sample 7 1%Q (1 # 1000)%Q (1 # 1000)%Q
             PyNone false 7
             "numba" (PyStr "default") true (PyBool true)
             "default" (PyOptimizer Louvain.head_and_rest) "python" 4%Z);
      try reflexivity; [exact Heng | exact Halg].
Defined.

(** A numpy array with two elements is neither the string ['default'] nor
    an [Optimizer], yet what construction raises is the [ValueError] of its
    ambiguous truth value; and an array holding ['default'] is taken for the
    default although it is not that string. *)
Lemma init_array_algorithm_not_TypeError :
  (is_optimizer array_of_two = false
   /\ array_of_two <> PyStr "default"
   /\ __init__ sample 7 "default" array_of_two
               1%Q (1 # 1000)%Q (1 # 1000)%Q (PyInt (-1)) PyNone false
      = Raise (ValueError
          "The truth value of an array with more than one element is ambiguous. Use a.any() or a.all()")
   /\ is_TypeError (ValueError
          "The truth value of an array with more than one element is ambiguous. Use a.any() or a.all()")
      = false)
  /\ (is_optimizer array_of_default = false
      /\ array_of_default <> PyStr "default"
      /\ exists s,
           __init__ sample 7 "default" array_of_default
                    1%Q (1 # 1000)%Q (1 # 1000)%Q (PyInt (-1)) PyNone false
           = Ok s).
Proof.
  split.
  - split; [reflexivity|]. split; [discriminate|]. split; reflexivity.
  - split; [reflexivity|]. split; [discriminate|]. eexists. reflexivity.
Qed.

(** The name ['auto'], a supplied optimizer, the name ['default'] and a
    numpy array with two elements, each passed as [algorithm]. *)
Lemma init_checks_algorithm_witness :
  let run := fun eng alg mai =>
    __init__ sample 7 eng alg 1%Q (1 # 1000)%Q (1 # 1000)%Q mai PyNone false in
  let ambiguous :=
    ValueError
      "The truth value of an array with more than one element is ambiguous. Use a.any() or a.all()" in
  (check_random_state sample 7 PyNone = Ok 7
   /\ eq_str (PyStr "auto") "default" = Ok false
   /\ is_optimizer (PyStr "auto") = false
   /\ eq_str (PyOptimizer Louvain.head_and_rest) "default" = Ok false
   /\ as_optimizer (PyOptimizer Louvain.head_and_rest)
      = Some Louvain.head_and_rest
   /\ eq_str (PyStr "default") "default" = Ok true
   /\ check_engine sample "default" = Ok "python"%string
   /\ eq_str array_of_two "default" = Raise ambiguous)
  /\ (run "fortran"%string (PyStr "auto") (PyBool true) = Raise algorithm_error
      /\ is_TypeError algorithm_error = true)
  /\ (exists s,
        run "default"%string (PyOptimizer Louvain.head_and_rest) (PyInt 3)
        = Ok s
        /\ algorithm s = Louvain.head_and_rest)
  /\ (exists s,
        run "default"%string (PyStr "default") (PyInt 3) = Ok s
        /\ algorithm s
           = GreedyModularity sample 1%Q (1 # 1000)%Q "python"%string)
  /\ run "fortran"%string array_of_two (PyFloat 2%Q) = Raise ambiguous.
Proof.
  cbv zeta. split.
  - repeat split.
  - apply (init_checks_algorithm sample 7 1%Q (1 # 1000)%Q (1 # 1000)%Q
             PyNone false 7
             (PyStr "auto") "fortran" (PyBool true)
             (PyOptimizer Louvain.head_and_rest) Louvain.head_and_rest
             (PyStr "default") "default" "python" 3%Z
             array_of_two
             (ValueError
                "The truth value of an array with more than one element is ambiguous. Use a.any() or a.all()")
             "fortran" (PyFloat 2%Q)); reflexivity.
Defined.

End BiLouvain.

(** ** KMeans and BiKMeans ([sknetwork/clustering/kmeans.py]) *)

Module KMeans.
Import Sparse Python Postprocessing.

(** The collaborators of [sknetwork.embedding], [sknetwork.utils] and
    [sknetwork.linalg]: an embedding method is an object whose [fit] changes
    its own state and leaves the embeddings in its attributes. *)
Record Collaborators : Type := {
  Embedder : Type;
  Embedding : Type;
  embedder_fit : Embedder -> csr_matrix -> Embedder;
  embedding_ : Embedder -> Embedding;
  embedding_row_ : Embedder -> Embedding;
  embedding_col_ : Embedder -> Embedding;
  vstack : Embedding -> Embedding -> Embedding;
  KMeansDense_fit : Z -> Embedding -> list nat;
  membership_matrix : list nat -> csr_matrix;
  normalize : csr_matrix -> csr_matrix;
  dot : csr_matrix -> csr_matrix -> csr_matrix
}.

(** How a method call ends, with the object as the call left it. *)
Inductive completion (S : Type) : Type :=
| Returns (self : S)
| Raises (e : exn) (self : S).

Arguments Returns {S} self.
Arguments Raises {S} e self.

Definition sorted_or_not (sort : bool) (labels : list nat) : list nat :=
  if sort then reindex_clusters labels else labels.

Section Model.

Variable X : Collaborators.

(** [method.fit_transform(m)]: fit, then read [embedding_]. *)
Definition fit_transform (method : Embedder X) (m : csr_matrix)
  : Embedder X * Embedding X :=
  let method' := embedder_fit X method m in
  (method', embedding_ X method').

Record KMeans : Type := mk_kmeans {
  n_clusters : Z;
  embedding_method : Embedder X;
  sort_clusters : bool;
  return_membership : bool;
  return_adjacency : bool;
  labels_ : option (list nat);
  membership_ : option csr_matrix;
  adjacency_ : option csr_matrix
}.

Definition too_many_for_nodes : exn :=
  ValueError "The number of clusters exceeds the number of nodes.".

(** [KMeans.fit]. *)
Definition fit (self : KMeans) (adjacency : csr_matrix) : completion KMeans :=
  if (Z.of_nat (fst (shape adjacency)) <? n_clusters self)%Z then
    Raises too_many_for_nodes self
  else
    let (method, embedding) := fit_transform (embedding_method self) adjacency in
    let kmeans_labels := KMeansDense_fit X (n_clusters self) embedding in
    let labels := sorted_or_not (sort_clusters self) kmeans_labels in
    let membership := membership_matrix X labels in
    Returns
      {| n_clusters := n_clusters self;
         embedding_method := method;
         sort_clusters := sort_clusters self;
         return_membership := return_membership self;
         return_adjacency := return_adjacency self;
         labels_ := Some labels;
         membership_ :=
           if return_membership self
           then Some (normalize X (dot X adjacency membership))
           else membership_ self;
         adjacency_ :=
           if return_adjacency self
           then Some (dot X (transpose membership)
                          (dot X adjacency membership))
           else adjacency_ self |}.

Lemma fit_guard self adjacency :
  (Z.of_nat (n_rows adjacency) < n_clusters self)%Z ->
  fit self adjacency = Raises too_many_for_nodes self.
Proof.
  intros H. unfold fit, shape; simpl. apply Z.ltb_lt in H. now rewrite H.
Qed.

Lemma fit_returns self adjacency :
  (n_clusters self <= Z.of_nat (n_rows adjacency))%Z ->
  exists self', fit self adjacency = Returns self'.
Proof.
  intros H. unfold fit, shape; simpl. apply Z.ltb_ge in H. rewrite H. eauto.
Qed.

End Model.

Arguments n_clusters {X} _.
Arguments labels_ {X} _.
Arguments embedding_method {X} _.
Arguments fit {X} self adjacency.

(** Stand-ins for the collaborators: the embedder counts its fits, every
    matrix product returns its left factor. *)
Definition sample : Collaborators :=
  {| Embedder := nat;
     Embedding := nat;
     embedder_fit := fun calls _ => S calls;
     embedding_ := fun calls => calls;
     embedding_row_ := fun calls => calls;
     embedding_col_ := fun calls => calls;
     vstack := fun a _ => a;
     KMeansDense_fit := fun _ _ => [];
     membership_matrix := fun _ => {| n_cols := 0; rows := [] |};
     normalize := fun m => m;
     dot := fun a _ => a |}.

(** Eight clusters asked of a graph with three nodes, on an object that
    already carries labels. *)
Example fit_rejected_keeps_labels :
  let self : KMeans sample :=
    {| n_clusters := 8;
       embedding_method := (0 : Embedder sample);
       sort_clusters := true;
       return_membership := true;
       return_adjacency := true;
       labels_ := Some [0; 1; 0];
       membership_ := None;
       adjacency_ := None |} in
  fit self {| n_cols := 3; rows := [[stored 1 1]; [stored 0 1]; []] |}
  = Raises (too_many_for_nodes) self.
Proof. reflexivity. Qed.

End KMeans.

Module BiKMeans.
Import Sparse Python Postprocessing.
Import KMeans(Collaborators, Embedder, Embedding, embedder_fit, embedding_,
              embedding_row_, embedding_col_, vstack, KMeansDense_fit,
              membership_matrix, normalize, dot, completion, Returns, Raises,
              sorted_or_not).

Section Model.

Variable X : Collaborators.

(** The object: what [KMeans.__init__] sets (with [return_adjacency]
    [False]) and what [BiKMeans.__init__] adds. *)
Record BiKMeans : Type := mk_bikmeans {
  n_clusters : Z;
  embedding_method : Embedder X;
  sort_clusters : bool;
  return_membership : bool;
  return_adjacency : bool;
  adjacency_ : option csr_matrix;
  co_cluster : bool;
  return_biadjacency : bool;
  labels_ : option (list nat);
  labels_row_ : option (list nat);
  labels_col_ : option (list nat);
  membership_ : option csr_matrix;
  membership_row_ : option csr_matrix;
  membership_col_ : option csr_matrix;
  biadjacency_ : option csr_matrix
}.

Definition too_many_for_rows : exn :=
  ValueError "The number of clusters exceeds the number of rows.".

(** [BiKMeans.fit]. *)
Definition fit (self : BiKMeans) (biadjacency : csr_matrix)
  : completion BiKMeans :=
  let (n_row, n_col) := shape biadjacency in
  if (Z.of_nat n_row <? n_clusters self)%Z then
    Raises too_many_for_rows self
  else
    let method := embedder_fit X (embedding_method self) biadjacency in
    let embedding :=
      if co_cluster self
      then vstack X (embedding_row_ X method) (embedding_col_ X method)
      else embedding_ X method in
    let kmeans_labels := KMeansDense_fit X (n_clusters self) embedding in
    let labels := sorted_or_not (sort_clusters self) kmeans_labels in
    let labels_row := if co_cluster self then firstn n_row labels else labels in
    let labels_col :=
      if co_cluster self then Some (skipn n_row labels) else labels_col_ self in
    let membership_row := membership_matrix X labels_row in
    let new_membership_row :=
      match labels_col with
      | Some lc =>
          normalize X (dot X biadjacency (membership_matrix X lc))
      | None =>
          normalize X (dot X biadjacency
                           (dot X (transpose biadjacency) membership_row))
      end in
    let new_biadjacency :=
      let reduced := dot X (transpose membership_row) biadjacency in
      match labels_col with
      | Some lc => dot X reduced (membership_matrix X lc)
      | None => reduced
      end in
    Returns
      {| n_clusters := n_clusters self;
         embedding_method := method;
         sort_clusters := sort_clusters self;
         return_membership := return_membership self;
         return_adjacency := return_adjacency self;
         adjacency_ := adjacency_ self;
         co_cluster := co_cluster self;
         return_biadjacency := return_biadjacency self;
         labels_ := Some labels_row;
         labels_row_ := Some labels_row;
         labels_col_ := labels_col;
         membership_ :=
           if return_membership self then Some new_membership_row
           else membership_ self;
         membership_row_ :=
           if return_membership self then Some new_membership_row
           else membership_row_ self;
         membership_col_ :=
           if return_membership self then
             match labels_col with
             | Some _ =>
                 Some (normalize X (dot X (transpose biadjacency)
                                        membership_row))
             | None => membership_col_ self
             end
           else membership_col_ self;
         biadjacency_ :=
           if return_biadjacency self then Some new_biadjacency
           else biadjacency_ self |}.

(** C10.  [KMeans.fit] raises the [ValueError] about nodes whenever
    [n_clusters] exceeds the number of rows of the adjacency, and the object
    is left exactly as it was: no embedding has been fitted and [labels_] is
    unchanged.  [BiKMeans.fit] raises the [ValueError] about rows whenever
    [n_clusters] exceeds the number of rows of the biadjacency, whatever
    [co_cluster] is, so also when rows and columns are clustered jointly.
    With no more clusters than rows both calls return. *)
Theorem fit_rejects_too_many_clusters
        (kself : KMeans.KMeans X) (adjacency : csr_matrix)
        (self : BiKMeans) (biadjacency : csr_matrix) :
  ((Z.of_nat (n_rows adjacency) < KMeans.n_clusters kself)%Z ->
     KMeans.fit kself adjacency = Raises (KMeans.too_many_for_nodes) kself
     /\ is_ValueError (KMeans.too_many_for_nodes) = true)
  /\ ((Z.of_nat (n_rows biadjacency) < n_clusters self)%Z ->
        fit self biadjacency = Raises too_many_for_rows self
        /\ is_ValueError too_many_for_rows = true)
  /\ ((KMeans.n_clusters kself <= Z.of_nat (n_rows adjacency))%Z ->
        exists kself', KMeans.fit kself adjacency = Returns kself')
  /\ ((n_clusters self <= Z.of_nat (n_rows biadjacency))%Z ->
        exists self', fit self biadjacency = Returns self').
Proof.
  split; [|split; [|split]]; intros H.
  - split; [now apply KMeans.fit_guard | reflexivity].
  - unfold fit, shape. apply Z.ltb_lt in H. rewrite H. split; reflexivity.
  - now apply KMeans.fit_returns.
  - unfold fit, shape. apply Z.ltb_ge in H. rewrite H. eauto.
Qed.

End Model.

Arguments fit {X} self biadjacency.

(** Three clusters asked of a bipartite graph with two rows and two
    columns, rows and columns clustered jointly. *)
Example fit_co_cluster_rejected :
  let self : BiKMeans KMeans.sample :=
    {| n_clusters := 3;
       embedding_method := (0 : Embedder KMeans.sample);
       sort_clusters := true;
       return_membership := true;
       return_adjacency := false;
       adjacency_ := None;
       co_cluster := true;
       return_biadjacency := true;
       labels_ := None;
       labels_row_ := None;
       labels_col_ := None;
       membership_ := None;
       membership_row_ := None;
       membership_col_ := None;
       biadjacency_ := None |} in
  fit self {| n_cols := 2; rows := [[stored 0 1]; [stored 1 1]] |}
  = Raises (too_many_for_rows) self.
Proof. reflexivity. Qed.

End BiKMeans.

(** ** Further properties of BiLouvain *)

Module BiLouvainFacts.
Import Sparse Python AdjacencyFormats BiLouvain.

(** The six attributes [fit] is documented to leave on the object. *)
Definition fitted_attributes {X : Collaborators} (s : BiLouvain X)
  : option (list nat) * option (list nat) * option nat
    * option csr_matrix * option Q * option nat :=
  (labels_ s, feature_labels_ s, iteration_count_ s,
   aggregate_graph_ s, score_ s, n_clusters_ s).

Definition observe {X : Collaborators} (o : outcome (BiLouvain X))
  : outcome (option (list nat) * option (list nat) * option nat
             * option csr_matrix * option Q * option nat) :=
  match o with
  | Done s => Done (fitted_attributes s)
  | Raised e => Raised e
  | Unfinished => Unfinished
  end.

Section Facts.

Variable X : Collaborators.

(** [fit] reads the object through [algorithm], [verbose] and [score_]
    only. *)
Lemma fit_reads s1 s2 fuel b w fw fu sc :
  algorithm s1 = algorithm s2 -> verbose X s1 = verbose X s2 ->
  score_ s1 = score_ s2 ->
  observe (fit fuel s1 b w fw fu sc) = observe (fit fuel s2 b w fw fu sc).
Proof.
  intros Ha Hv Hs. unfold fit, new_louvain. rewrite Ha, Hv.
  destruct (check_format X b) as [b'|e]; [|reflexivity].
  unfold shape.
  destruct (driver_call X b' w fw fu) as [call|e]; [|reflexivity].
  destruct (Louvain.Louvain_fit _ _ _ _ _) as [fitted|]; [|reflexivity].
  simpl. unfold fitted_attributes. simpl. now rewrite Hs.
Qed.

(** X1.  The [max_agg_iter] and [agg_tol] given to the constructor never
    reach the driver: two objects built from arguments that differ only in
    them end [fit] alike, with the same six fitted attributes. *)
Theorem fit_ignores_budget_and_tolerance
        ambient eng alg res tl atol1 atol2 z1 z2 rs vb
        fuel b w fw fu sc s1 s2 :
  __init__ X ambient eng alg res tl atol1 (PyInt z1) rs vb = Ok s1 ->
  __init__ X ambient eng alg res tl atol2 (PyInt z2) rs vb = Ok s2 ->
  (max_agg_iter s1 = z1 /\ max_agg_iter s2 = z2
   /\ agg_tol X s1 = atol1 /\ agg_tol X s2 = atol2)
  /\ observe (fit fuel s1 b w fw fu sc) = observe (fit fuel s2 b w fw fu sc).
Proof.
  intros H1 H2.
  destruct (init_fields X _ _ _ _ _ _ _ _ _ _ H1) as (Ha1 & Hv1 & Hs1 & _).
  destruct (init_fields X _ _ _ _ _ _ _ _ _ _ H2) as (Ha2 & Hv2 & Hs2 & _).
  split.
  - unfold __init__ in H1, H2.
    destruct (check_random_state X ambient rs) as [r|e]; simpl in *;
      [|discriminate].
    destruct (select_algorithm X alg res tl eng) as [o|e]; simpl in *;
      [|discriminate].
    destruct (check_engine X eng) as [e|e]; simpl in *; [|discriminate].
    injection H1 as <-. injection H2 as <-. simpl. auto.
  - apply fit_reads; congruence.
Qed.

(** X2.  [fit] never assigns [score_]: on an object fresh from the
    constructor a completed [fit] sets [labels_], [feature_labels_],
    [iteration_count_], [aggregate_graph_] and [n_clusters_] but leaves
    [score_] at [None]; the constructor parameters are untouched. *)
Theorem fit_leaves_score_unset
        ambient eng alg res tl atol mai rs vb fuel b w fw fu sc s s' :
  __init__ X ambient eng alg res tl atol mai rs vb = Ok s ->
  fit fuel s b w fw fu sc = Done s' ->
  score_ s' = None
  /\ labels_ s' <> None /\ feature_labels_ s' <> None
  /\ iteration_count_ s' <> None /\ aggregate_graph_ s' <> None
  /\ n_clusters_ s' <> None
  /\ algorithm s' = algorithm s /\ max_agg_iter s' = max_agg_iter s
  /\ resolution X s' = resolution X s /\ tol X s' = tol X s
  /\ agg_tol X s' = agg_tol X s /\ engine X s' = engine X s
  /\ verbose X s' = verbose X s /\ random_state s' = random_state s.
Proof.
  intros Hinit Hfit.
  destruct (init_fields X _ _ _ _ _ _ _ _ _ _ Hinit) as (_ & _ & Hs & _).
  destruct (fit_Done X _ _ _ _ _ _ _ _ Hfit)
    as (b' & call & fitted & _ & _ & _ & ->).
  simpl. rewrite Hs.
  repeat split; discriminate.
Qed.

(** X4.  Fitted attributes are overwritten, never read: fitting an object
    that has already been fitted gives exactly what fitting the object as
    it was before would give, so fitting the same data again changes
    nothing. *)
Theorem refit_forgets_previous_fit
        fuel (s : BiLouvain X) b w fw fu sc s'
        fuel2 b2 w2 fw2 fu2 sc2 :
  fit fuel s b w fw fu sc = Done s' ->
  fit fuel2 s' b2 w2 fw2 fu2 sc2 = fit fuel2 s b2 w2 fw2 fu2 sc2
  /\ fit fuel s' b w fw fu sc = Done s'.
Proof.
  intros Hfit.
  destruct (fit_Done X _ _ _ _ _ _ _ _ Hfit)
    as (b' & call & fitted & _ & _ & _ & Hs').
  assert (Hsame : forall f3 b3 w3 fw3 fu3 sc3,
             fit f3 s' b3 w3 fw3 fu3 sc3 = fit f3 s b3 w3 fw3 fu3 sc3).
  { intros. subst s'. unfold fit, new_louvain. simpl.
    destruct (check_format X b3) as [b3'|e]; [|reflexivity].
    unfold shape.
    destruct (driver_call X b3' w3 fw3 fu3) as [call3|e]; [|reflexivity].
    destruct (Louvain.Louvain_fit _ _ _ _ _) as [fitted3|]; reflexivity. }
  split; [apply Hsame|]. rewrite Hsame. exact Hfit.
Qed.

(** X5.  If the constructor succeeds, then the random state passed its
    check, the test [algorithm == 'default'] was true or it was false on an
    [Optimizer] instance, [max_agg_iter] has type [int] and the engine
    passed its check, the checked engine being what is stored.  For an
    [Optimizer] instance on which the test is false these conditions are
    also enough; and the engine is checked although the supplied optimizer
    makes it unused: with an [int] budget, the error of a refused engine is
    what construction raises. *)
Theorem init_success_conditions ambient eng alg res tl atol mai rs vb :
  (forall s,
     __init__ X ambient eng alg res tl atol mai rs vb = Ok s ->
     (exists r, check_random_state X ambient rs = Ok r)
     /\ (eq_str alg "default" = Ok true
         \/ (eq_str alg "default" = Ok false /\ is_optimizer alg = true))
     /\ type_is_int mai = true
     /\ check_engine X eng = Ok (engine X s))
  /\ (forall o,
        eq_str alg "default" = Ok false -> as_optimizer alg = Some o ->
        ((exists s, __init__ X ambient eng alg res tl atol mai rs vb = Ok s)
         <-> (exists r, check_random_state X ambient rs = Ok r)
             /\ type_is_int mai = true
             /\ (exists e, check_engine X eng = Ok e)))
  /\ (forall o z r e,
        eq_str alg "default" = Ok false -> as_optimizer alg = Some o ->
        mai = PyInt z ->
        check_random_state X ambient rs = Ok r ->
        check_engine X eng = Raise e ->
        __init__ X ambient eng alg res tl atol mai rs vb = Raise e).
Proof.
  assert (Hnec : forall s,
     __init__ X ambient eng alg res tl atol mai rs vb = Ok s ->
     (exists r, check_random_state X ambient rs = Ok r)
     /\ (eq_str alg "default" = Ok true
         \/ (eq_str alg "default" = Ok false /\ is_optimizer alg = true))
     /\ type_is_int mai = true
     /\ check_engine X eng = Ok (engine X s)).
  { intros s Hs. unfold __init__, select_algorithm, is_optimizer in *.
    destruct (check_random_state X ambient rs) as [r|e]; simpl in Hs;
      [|discriminate].
    split; [eauto|].
    destruct (eq_str alg "default") as [[|]|e]; simpl in Hs; [| |discriminate].
    - destruct (check_engine X eng) as [e|e]; simpl in Hs; [|discriminate].
      destruct mai; try discriminate. injection Hs as <-. simpl. auto.
    - destruct (as_optimizer alg) as [o|]; simpl in Hs; [|discriminate].
      destruct mai; try discriminate.
      destruct (check_engine X eng) as [e|e]; simpl in Hs; [|discriminate].
      injection Hs as <-. simpl. auto. }
  split; [exact Hnec|]. split.
  - intros o Heq Ho. split.
    + intros [s Hs]. destruct (Hnec s Hs) as (Hr & _ & Hint & He). eauto.
    + intros ([r Hr] & Hint & [e He]).
      unfold __init__. rewrite Hr. simpl.
      rewrite (select_algorithm_instance X alg res tl eng o Heq Ho). simpl.
      destruct mai; try discriminate. rewrite He. simpl. eauto.
  - intros o z r e Heq Ho -> Hr He. unfold __init__. rewrite Hr. simpl.
    rewrite (select_algorithm_instance X alg res tl eng o Heq Ho). simpl.
    rewrite He. reflexivity.
Qed.

End Facts.

(** [fresh 7] rebuilt with no aggregation allowed and a large tolerance. *)
Definition fresh_tight : BiLouvain sample :=
  {| random_state := 7 : RandomState sample;
     algorithm := Louvain.head_and_rest;
     resolution := 1%Q;
     tol := (1 # 1000)%Q;
     agg_tol := 5%Q;
     max_agg_iter := 0%Z;
     engine := "python"%string;
     verbose := false;
     labels_ := None;
     feature_labels_ := None;
     iteration_count_ := None;
     aggregate_graph_ := None;
     score_ := None;
     n_clusters_ := None |}.

(** A budget of 0 and one of -1 leave the same attributes on [star]. *)
Lemma fit_ignores_budget_and_tolerance_witness :
  let build := fun atol z =>
    __init__ sample 7 "default" (PyOptimizer Louvain.head_and_rest)
             1%Q (1 # 1000)%Q atol (PyInt z) PyNone false in
  (build (1 # 1000)%Q (-1)%Z = Ok (fresh 7) /\ build 5%Q 0%Z = Ok fresh_tight)
  /\ (max_agg_iter (fresh 7) = (-1)%Z /\ max_agg_iter fresh_tight = 0%Z
      /\ agg_tol sample (fresh 7) = (1 # 1000)%Q
      /\ agg_tol sample fresh_tight = 5%Q)
  /\ observe (fit 3 (fresh 7) star star_weights star_feature_weights false true)
     = observe (fit 3 fresh_tight star star_weights star_feature_weights
                    false true).
Proof.
  cbv zeta. split; [split; reflexivity|].
  apply (fit_ignores_budget_and_tolerance sample 7 "default"
           (PyOptimizer Louvain.head_and_rest) 1%Q (1 # 1000)%Q
           (1 # 1000)%Q 5%Q (-1)%Z 0%Z PyNone false
           3 star star_weights star_feature_weights false true
           (fresh 7) fresh_tight); reflexivity.
Defined.

(** [star] fitted on a fresh object: labels are there, the score is not. *)
Lemma fit_leaves_score_unset_witness :
  let s := fresh 7 in
  let s' := store (fresh 7) 1 true (bipartite2directed star) star_fitted in
  (__init__ sample 7 "default" (PyOptimizer Louvain.head_and_rest)
            1%Q (1 # 1000)%Q (1 # 1000)%Q (PyInt (-1)) PyNone false = Ok s
   /\ fit 3 s star star_weights star_feature_weights false true = Done s')
  /\ (score_ s' = None
      /\ labels_ s' <> None /\ feature_labels_ s' <> None
      /\ iteration_count_ s' <> None /\ aggregate_graph_ s' <> None
      /\ n_clusters_ s' <> None
      /\ algorithm s' = algorithm s /\ max_agg_iter s' = max_agg_iter s
      /\ resolution sample s' = resolution sample s
      /\ tol sample s' = tol sample s
      /\ agg_tol sample s' = agg_tol sample s
      /\ engine sample s' = engine sample s
      /\ verbose sample s' = verbose sample s
      /\ random_state s' = random_state s).
Proof.
  cbv zeta. split; [split; reflexivity|].
  apply (fit_leaves_score_unset sample 7 "default"
           (PyOptimizer Louvain.head_and_rest) 1%Q (1 # 1000)%Q (1 # 1000)%Q
           (PyInt (-1)) PyNone false
           3 star star_weights star_feature_weights false true);
    reflexivity.
Defined.

(** [star] fitted sorted, then fitted again unsorted and sorted. *)
Lemma refit_forgets_previous_fit_witness :
  let s := fresh 7 in
  let s' := store (fresh 7) 1 true (bipartite2directed star) star_fitted in
  fit 3 s star star_weights star_feature_weights false true = Done s'
  /\ (fit 2 s' star star_weights star_feature_weights false false
      = fit 2 s star star_weights star_feature_weights false false
      /\ fit 3 s' star star_weights star_feature_weights false true = Done s').
Proof.
  cbv zeta. split; [reflexivity|].
  apply (refit_forgets_previous_fit sample
           3 (fresh 7) star star_weights star_feature_weights false true
           (store (fresh 7) 1 true (bipartite2directed star) star_fitted)
           2 star star_weights star_feature_weights false false).
  reflexivity.
Defined.

(** The order of the checks on a sample call: a bad input matrix shape for
    the column weights is reported although the row weights are fine. *)
Example fit_reports_column_weights :
  fit 3 (fresh 7) star star_weights (WArray [1%Q]) false true
  = Raised (ValueError "Dimensions mismatch.").
Proof. reflexivity. Qed.

Example init_checks_unused_engine :
  __init__ sample 7 "fortran" (PyOptimizer Louvain.head_and_rest)
           1%Q (1 # 1000)%Q (1 # 1000)%Q (PyInt 3) PyNone false
  = Raise (ValueError "Engine must be default, python or numba.").
Proof. reflexivity. Qed.

End BiLouvainFacts.


(** ** Construction and life cycle of KMeans objects *)

Module KMeansObject.
Import Sparse Python Postprocessing.
Import KMeans(Collaborators, Embedder, completion, Returns, Raises).

Local Open Scope py_scope.

Definition no_embedding_error : exn :=
  TypeError "The embedding method must have an attribute embedding_.".

Definition has_value {A : Type} (o : option A) : bool :=
  match o with Some _ => true | None => false end.

Section Model.

Variable X : Collaborators.

(** [hasattr(embedding_method, name)]. *)
Variable hasattr : Embedder X -> string -> bool.

(** [KMeans.__init__].  [super().__init__()] is taken to leave [labels_]
    without a value; [membership_] has none until a fit assigns it. *)
Definition __init__ (n_clusters : Z) (embedding_method : Embedder X)
           (sort_clusters return_membership return_adjacency : bool)
  : result (KMeans.KMeans X) :=
  if negb (hasattr embedding_method "embedding_") then
    Raise no_embedding_error
  else
    Ok {| KMeans.n_clusters := n_clusters;
          KMeans.embedding_method := embedding_method;
          KMeans.sort_clusters := sort_clusters;
          KMeans.return_membership := return_membership;
          KMeans.return_adjacency := return_adjacency;
          KMeans.labels_ := None;
          KMeans.membership_ := None;
          KMeans.adjacency_ := None |}.

(** The collaborators as calls that may raise.  A fit of the embedding
    method leaves the method object in some state whether it raises or
    not. *)
Variable try_fit_transform :
  Embedder X -> csr_matrix -> Embedder X * result (KMeans.Embedding X).
Variable try_KMeansDense_fit : Z -> KMeans.Embedding X -> result (list nat).
Variable try_membership_matrix : list nat -> result csr_matrix.
Variable try_normalize : csr_matrix -> result csr_matrix.
Variable try_dot : csr_matrix -> csr_matrix -> result csr_matrix.

(** Go on with the value of a call, or stop with the object as it is. *)
Definition attempt {A : Type} (r : result A) (self : KMeans.KMeans X)
           (k : A -> completion (KMeans.KMeans X))
  : completion (KMeans.KMeans X) :=
  match r with
  | Ok a => k a
  | Raise e => Raises e self
  end.

Definition with_embedding_method (self : KMeans.KMeans X) (m : Embedder X)
  : KMeans.KMeans X :=
  {| KMeans.n_clusters := KMeans.n_clusters self;
     KMeans.embedding_method := m;
     KMeans.sort_clusters := KMeans.sort_clusters X self;
     KMeans.return_membership := KMeans.return_membership X self;
     KMeans.return_adjacency := KMeans.return_adjacency X self;
     KMeans.labels_ := KMeans.labels_ self;
     KMeans.membership_ := KMeans.membership_ X self;
     KMeans.adjacency_ := KMeans.adjacency_ X self |}.

Definition with_labels (self : KMeans.KMeans X) (labels : list nat)
  : KMeans.KMeans X :=
  {| KMeans.n_clusters := KMeans.n_clusters self;
     KMeans.embedding_method := KMeans.embedding_method self;
     KMeans.sort_clusters := KMeans.sort_clusters X self;
     KMeans.return_membership := KMeans.return_membership X self;
     KMeans.return_adjacency := KMeans.return_adjacency X self;
     KMeans.labels_ := Some labels;
     KMeans.membership_ := KMeans.membership_ X self;
     KMeans.adjacency_ := KMeans.adjacency_ X self |}.

Definition with_membership (self : KMeans.KMeans X) (m : csr_matrix)
  : KMeans.KMeans X :=
  {| KMeans.n_clusters := KMeans.n_clusters self;
     KMeans.embedding_method := KMeans.embedding_method self;
     KMeans.sort_clusters := KMeans.sort_clusters X self;
     KMeans.return_membership := KMeans.return_membership X self;
     KMeans.return_adjacency := KMeans.return_adjacency X self;
     KMeans.labels_ := KMeans.labels_ self;
     KMeans.membership_ := Some m;
     KMeans.adjacency_ := KMeans.adjacency_ X self |}.

Definition with_adjacency (self : KMeans.KMeans X) (m : csr_matrix)
  : KMeans.KMeans X :=
  {| KMeans.n_clusters := KMeans.n_clusters self;
     KMeans.embedding_method := KMeans.embedding_method self;
     KMeans.sort_clusters := KMeans.sort_clusters X self;
     KMeans.return_membership := KMeans.return_membership X self;
     KMeans.return_adjacency := KMeans.return_adjacency X self;
     KMeans.labels_ := KMeans.labels_ self;
     KMeans.membership_ := KMeans.membership_ X self;
     KMeans.adjacency_ := Some m |}.

(** [KMeans.fit], statement by statement, with collaborators that may
    raise: line 86 the guard; line 89 the embedding; lines 90-91 the dense
    k-means; lines 93-97 the labels, assigned to [labels_]; line 100 the
    membership matrix; line 102 [membership_]; line 104 [adjacency_].  An
    exception leaves the object as the statements before it made it. *)
Definition fit (self : KMeans.KMeans X) (adjacency : csr_matrix)
  : completion (KMeans.KMeans X) :=
  if (Z.of_nat (fst (shape adjacency)) <? KMeans.n_clusters self)%Z then
    Raises (KMeans.too_many_for_nodes) self
  else
    let (method, embedding) :=
      try_fit_transform (KMeans.embedding_method self) adjacency in
    let self := with_embedding_method self method in
    attempt embedding self (fun embedding =>
    attempt (try_KMeansDense_fit (KMeans.n_clusters self) embedding) self
            (fun kmeans_labels =>
    let labels :=
      KMeans.sorted_or_not (KMeans.sort_clusters X self) kmeans_labels in
    let self := with_labels self labels in
    if KMeans.return_membership X self || KMeans.return_adjacency X self then
      attempt (try_membership_matrix labels) self (fun membership =>
      let then_adjacency (self : KMeans.KMeans X) :=
        if KMeans.return_adjacency X self then
          attempt (try_dot adjacency membership) self (fun product =>
          attempt (try_dot (transpose membership) product) self
                  (fun reduced => Returns (with_adjacency self reduced)))
        else Returns self in
      if KMeans.return_membership X self then
        attempt (try_dot adjacency membership) self (fun product =>
        attempt (try_normalize product) self (fun normalized =>
        then_adjacency (with_membership self normalized)))
      else then_adjacency self)
    else Returns self)).

(** When no collaborator raises, this is [KMeans.fit]. *)
Lemma fit_refines (self : KMeans.KMeans X) adjacency :
  (forall m a, try_fit_transform m a
               = (fst (KMeans.fit_transform X m a),
                  Ok (snd (KMeans.fit_transform X m a)))) ->
  (forall k e, try_KMeansDense_fit k e = Ok (KMeans.KMeansDense_fit X k e)) ->
  (forall l, try_membership_matrix l = Ok (KMeans.membership_matrix X l)) ->
  (forall m, try_normalize m = Ok (KMeans.normalize X m)) ->
  (forall a b, try_dot a b = Ok (KMeans.dot X a b)) ->
  fit self adjacency = KMeans.fit self adjacency.
Proof.
  intros H1 H2 H3 H4 H5.
  destruct self as [n em sc rm ra l m a]. unfold fit, KMeans.fit.
  destruct (_ <? _)%Z; [reflexivity|].
  rewrite H1. destruct (KMeans.fit_transform X _ _) as [method embedding].
  simpl. rewrite H2. simpl.
  destruct rm, ra; simpl;
    rewrite ?H3; simpl; rewrite ?H5; simpl; rewrite ?H4; simpl;
    rewrite ?H5; simpl; reflexivity.
Qed.

(** The objects a program can hold: built by the constructor, then passed
    through any number of calls of [fit], whether they return or raise,
    at the guard or midway. *)
Inductive reachable : KMeans.KMeans X -> Prop :=
| reach_new n em sc rm ra s :
    __init__ n em sc rm ra = Ok s -> reachable s
| reach_fit s adjacency s' :
    reachable s -> fit s adjacency = Returns s' -> reachable s'
| reach_raise s adjacency e s' :
    reachable s -> fit s adjacency = Raises e s' -> reachable s'.

(** An optional output is there only if it was asked for and labels are
    there. *)
Definition outputs_asked_for (s : KMeans.KMeans X) : Prop :=
  (has_value (KMeans.membership_ X s) = true ->
   KMeans.return_membership X s = true
   /\ has_value (KMeans.labels_ s) = true)
  /\ (has_value (KMeans.adjacency_ X s) = true ->
      KMeans.return_adjacency X s = true
      /\ has_value (KMeans.labels_ s) = true).

(** After a call that returned, the outputs are there exactly as asked. *)
Definition outputs_as_asked (s : KMeans.KMeans X) : Prop :=
  has_value (KMeans.labels_ s) = true
  /\ has_value (KMeans.membership_ X s) = KMeans.return_membership X s
  /\ has_value (KMeans.adjacency_ X s) = KMeans.return_adjacency X s.

Ltac fit_cases :=
  repeat (match goal with
          | |- context [match ?r with _ => _ end] => destruct r eqn:?
          end; cbn [orb andb]).

Lemma fit_step s adjacency :
  outputs_asked_for s ->
  (forall s', fit s adjacency = Returns s' ->
              outputs_asked_for s' /\ outputs_as_asked s')
  /\ (forall e s', fit s adjacency = Raises e s' -> outputs_asked_for s').
Proof.
  destruct s as [n em sc rm ra l m a].
  unfold outputs_asked_for, outputs_as_asked, fit, attempt,
    with_adjacency, with_membership, with_labels, with_embedding_method.
  cbn [KMeans.return_membership KMeans.return_adjacency KMeans.n_clusters
       KMeans.sort_clusters KMeans.embedding_method KMeans.labels_
       KMeans.membership_ KMeans.adjacency_].
  intros [Hm Ha].
  destruct rm, ra; cbn [orb]; fit_cases;
    (split; [intros s' Hs' | intros e' s' Hs']);
    try discriminate Hs';
    inversion Hs'; subst; clear Hs'; simpl;
    destruct (has_value m), (has_value a);
    intuition (try discriminate; auto).
Qed.

(** X6.  For every object built by [KMeans.__init__] and passed through
    any calls of [fit], whether they returned, raised the cluster-count
    error or raised from a collaborator midway: [membership_] holds a value
    only if [return_membership] is set and [labels_] holds one, and
    [adjacency_] only if [return_adjacency] is set and [labels_] holds one;
    and a further call that returns leaves [labels_] with a value and
    [membership_] and [adjacency_] with a value exactly when their flags are
    set. *)
Theorem optional_outputs_follow_flags s :
  reachable s ->
  ((has_value (KMeans.membership_ X s) = true ->
    KMeans.return_membership X s = true
    /\ has_value (KMeans.labels_ s) = true)
   /\ (has_value (KMeans.adjacency_ X s) = true ->
       KMeans.return_adjacency X s = true
       /\ has_value (KMeans.labels_ s) = true))
  /\ (forall adjacency s',
        fit s adjacency = Returns s' ->
        has_value (KMeans.labels_ s') = true
        /\ has_value (KMeans.membership_ X s') = KMeans.return_membership X s'
        /\ has_value (KMeans.adjacency_ X s') = KMeans.return_adjacency X s').
Proof.
  intros Hreach.
  assert (Hinv : outputs_asked_for s).
  { induction Hreach as [n em sc rm ra s Hnew | s adjacency s' Hs IH Hfit
                         | s adjacency e s' Hs IH Hfit].
    - unfold __init__ in Hnew.
      destruct (negb _); [discriminate|]. injection Hnew as <-.
      split; simpl; discriminate.
    - exact (proj1 (proj1 (fit_step s adjacency IH) s' Hfit)).
    - exact (proj2 (fit_step s adjacency IH) e s' Hfit). }
  split; [exact Hinv|].
  intros adjacency s' Hfit.
  exact (proj2 (proj1 (fit_step s adjacency Hinv) s' Hfit)).
Qed.

End Model.

(** Stand-ins for the collaborators that keep track of sizes: the embedder
    remembers the shape it was fitted on, an embedding is a number of
    points, the dense k-means deals the points round-robin. *)
Definition points : Collaborators :=
  {| KMeans.Embedder := (nat * nat)%type;
     KMeans.Embedding := nat;
     KMeans.embedder_fit := fun _ m => (n_rows m, n_cols m);
     KMeans.embedding_ := fst;
     KMeans.embedding_row_ := fst;
     KMeans.embedding_col_ := snd;
     KMeans.vstack := Nat.add;
     KMeans.KMeansDense_fit :=
       fun k e => map (fun i => i mod Z.to_nat k) (seq 0 e);
     KMeans.membership_matrix :=
       fun labels => {| n_cols := n_distinct labels;
                        rows := map (fun l => [stored l 1]) labels |};
     KMeans.normalize := fun m => m;
     KMeans.dot := fun a _ => a |}.

Definition any_attribute (em : Embedder points) (name : string) : bool := true.

Definition path3 : csr_matrix :=
  {| n_cols := 3;
     rows := [[stored 1 1]; [stored 0 1; stored 2 1]; [stored 1 1]] |}.

(** [KMeans(n_clusters=2, return_adjacency=False)] and its state after one
    fit on [path3]. *)
Definition kmeans_new : KMeans.KMeans points :=
  {| KMeans.n_clusters := 2;
     KMeans.embedding_method := ((0, 0) : Embedder points);
     KMeans.sort_clusters := true;
     KMeans.return_membership := true;
     KMeans.return_adjacency := false;
     KMeans.labels_ := None;
     KMeans.membership_ := None;
     KMeans.adjacency_ := None |}.

Definition kmeans_fitted : KMeans.KMeans points :=
  Eval vm_compute in
    match KMeans.fit kmeans_new path3 with
    | Returns s => s
    | Raises _ s => s
    end.

Example kmeans_fitted_labels :
  KMeans.fit kmeans_new path3 = Returns kmeans_fitted
  /\ KMeans.labels_ kmeans_fitted = Some [0; 1; 0].
Proof. split; reflexivity. Qed.

(** Collaborators over [points] that raise as the libraries do: only the
    sparse product does, on operands whose inner dimensions differ. *)
Definition dimension_mismatch : exn := ValueError "dimension mismatch".

Definition checked_fit_transform (method : Embedder points) (m : csr_matrix)
  : Embedder points * result (KMeans.Embedding points) :=
  (fst (KMeans.fit_transform points method m),
   Ok (snd (KMeans.fit_transform points method m))).

Definition checked_KMeansDense_fit (k : Z) (e : KMeans.Embedding points)
  : result (list nat) :=
  Ok (KMeans.KMeansDense_fit points k e).

Definition checked_membership_matrix (labels : list nat) : result csr_matrix :=
  Ok (KMeans.membership_matrix points labels).

Definition checked_normalize (m : csr_matrix) : result csr_matrix :=
  Ok (KMeans.normalize points m).

Definition checked_dot (a b : csr_matrix) : result csr_matrix :=
  if Nat.eqb (n_cols a) (n_rows b) then Ok (KMeans.dot points a b)
  else Raise dimension_mismatch.

Definition checked_fit
  : KMeans.KMeans points -> csr_matrix -> completion (KMeans.KMeans points) :=
  fit points checked_fit_transform checked_KMeansDense_fit
      checked_membership_matrix checked_normalize checked_dot.

Definition checked_reachable : KMeans.KMeans points -> Prop :=
  reachable points any_attribute checked_fit_transform
            checked_KMeansDense_fit checked_membership_matrix
            checked_normalize checked_dot.

(** On a square matrix the call returns what [KMeans.fit] returns. *)
Example checked_fit_square :
  checked_fit kmeans_new path3 = Returns kmeans_fitted.
Proof. reflexivity. Qed.

(** Three rows and two columns: the labels have three entries, so the
    product of line 102 has operands of inner dimensions 2 and 3. *)
Definition tall : csr_matrix :=
  {| n_cols := 2;
     rows := [[stored 0 1]; [stored 0 1; stored 1 1]; [stored 1 1]] |}.

Definition kmeans_interrupted : KMeans.KMeans points :=
  Eval vm_compute in
    match checked_fit kmeans_new tall with
    | Returns s => s
    | Raises _ s => s
    end.

(** The call raises after line 97: [labels_] is set, [membership_] is not,
    though it was asked for. *)
Example checked_fit_tall :
  checked_fit kmeans_new tall = Raises dimension_mismatch kmeans_interrupted
  /\ KMeans.labels_ kmeans_interrupted = Some [0; 1; 0]
  /\ KMeans.membership_ points kmeans_interrupted = None
  /\ KMeans.return_membership points kmeans_interrupted = true.
Proof. repeat split; reflexivity. Qed.

Lemma kmeans_interrupted_reachable : checked_reachable kmeans_interrupted.
Proof.
  apply (reach_raise points any_attribute checked_fit_transform
           checked_KMeansDense_fit checked_membership_matrix
           checked_normalize checked_dot
           kmeans_new tall dimension_mismatch).
  - apply (reach_new points any_attribute checked_fit_transform
             checked_KMeansDense_fit checked_membership_matrix
             checked_normalize checked_dot 2%Z (0, 0) true true false).
    reflexivity.
  - reflexivity.
Defined.

(** After a fit that raised midway, and then for a fit that returns. *)
Lemma optional_outputs_follow_flags_witness :
  checked_reachable kmeans_interrupted
  /\ ((has_value (KMeans.membership_ points kmeans_interrupted) = true ->
       KMeans.return_membership points kmeans_interrupted = true
       /\ has_value (KMeans.labels_ kmeans_interrupted) = true)
      /\ (has_value (KMeans.adjacency_ points kmeans_interrupted) = true ->
          KMeans.return_adjacency points kmeans_interrupted = true
          /\ has_value (KMeans.labels_ kmeans_interrupted) = true))
  /\ (forall adjacency s',
        checked_fit kmeans_interrupted adjacency = Returns s' ->
        has_value (KMeans.labels_ s') = true
        /\ has_value (KMeans.membership_ points s')
           = KMeans.return_membership points s'
        /\ has_value (KMeans.adjacency_ points s')
           = KMeans.return_adjacency points s').
Proof.
  split; [exact kmeans_interrupted_reachable|].
  apply (optional_outputs_follow_flags points any_attribute
           checked_fit_transform checked_KMeansDense_fit
           checked_membership_matrix checked_normalize checked_dot
           kmeans_interrupted).
  exact kmeans_interrupted_reachable.
Defined.

End KMeansObject.

(** ** Construction and life cycle of BiKMeans objects *)

Module BiKMeansObject.
Import Sparse Python Postprocessing.
Import KMeans(Collaborators, Embedder, embedder_fit, embedding_,
              embedding_row_, embedding_col_, vstack, KMeansDense_fit,
              membership_matrix, normalize, dot, completion, Returns, Raises,
              sorted_or_not).
Import KMeansObject(no_embedding_error, has_value).
Import BiKMeans.

Local Open Scope py_scope.

Definition no_embedding_col_error : exn :=
  ValueError "The embedding method must have an attribute embedding_col_.".

Section Model.

Variable X : Collaborators.

(** [hasattr(embedding_method, name)]. *)
Variable hasattr : Embedder X -> string -> bool.

(** [BiKMeans.__init__]: [KMeans.__init__] with [return_adjacency]
    [False], then the two attribute checks, then the attributes of its
    own. *)
Definition __init__ (n_clusters_arg : Z) (embedding_method_arg : Embedder X)
           (co_cluster_arg sort_clusters_arg return_membership_arg
            return_biadjacency_arg : bool)
  : result (BiKMeans X) :=
  k <- KMeansObject.__init__ X hasattr n_clusters_arg embedding_method_arg
                             sort_clusters_arg return_membership_arg false ;;
  if negb (hasattr embedding_method_arg "embedding_") then
    Raise no_embedding_error
  else if (co_cluster_arg || return_membership_arg)
          && negb (hasattr embedding_method_arg "embedding_col_") then
    Raise no_embedding_col_error
  else
    Ok {| n_clusters := KMeans.n_clusters k;
          embedding_method := KMeans.embedding_method k;
          sort_clusters := KMeans.sort_clusters X k;
          return_membership := KMeans.return_membership X k;
          return_adjacency := KMeans.return_adjacency X k;
          adjacency_ := KMeans.adjacency_ X k;
          co_cluster := co_cluster_arg;
          return_biadjacency := return_biadjacency_arg;
          labels_ := None;
          labels_row_ := None;
          labels_col_ := None;
          membership_ := None;
          membership_row_ := None;
          membership_col_ := None;
          biadjacency_ := None |}.

(** The objects a program can hold: built by the constructor, then passed
    through any number of calls of [fit], completed or not. *)
Inductive reachable : BiKMeans X -> Prop :=
| reach_bi_new n em co sc rm rb s :
    __init__ n em co sc rm rb = Ok s -> reachable s
| reach_bi_fit s biadjacency s' :
    reachable s -> fit s biadjacency = Returns s' -> reachable s'
| reach_bi_raise s biadjacency e s' :
    reachable s -> fit s biadjacency = Raises e s' -> reachable s'.

(** The relations between attributes that the class documents. *)
Definition consistent (s : BiKMeans X) : Prop :=
  labels_row_ X s = labels_ X s
  /\ membership_row_ X s = membership_ X s
  /\ return_adjacency X s = false
  /\ adjacency_ X s = None
  /\ (co_cluster X s = false ->
      labels_col_ X s = None /\ membership_col_ X s = None)
  /\ (co_cluster X s = true ->
      has_value (labels_col_ X s) = has_value (labels_ X s)).

Lemma init_Ok n em co sc rm rb s :
  __init__ n em co sc rm rb = Ok s ->
  s = {| n_clusters := n;
         embedding_method := em;
         sort_clusters := sc;
         return_membership := rm;
         return_adjacency := false;
         adjacency_ := None;
         co_cluster := co;
         return_biadjacency := rb;
         labels_ := None;
         labels_row_ := None;
         labels_col_ := None;
         membership_ := None;
         membership_row_ := None;
         membership_col_ := None;
         biadjacency_ := None |}
  /\ hasattr em "embedding_" = true
  /\ ((co || rm) = true -> hasattr em "embedding_col_" = true).
Proof.
  unfold __init__, KMeansObject.__init__.
  destruct (hasattr em "embedding_"); simpl; [|discriminate].
  destruct (co || rm); simpl.
  - destruct (hasattr em "embedding_col_"); simpl; [|discriminate].
    intros [= <-]. auto.
  - intros [= <-]. repeat split. discriminate.
Qed.

Lemma init_consistent n em co sc rm rb s :
  __init__ n em co sc rm rb = Ok s -> consistent s.
Proof.
  intros H. apply init_Ok in H. destruct H as (-> & _ & _).
  unfold consistent. simpl. repeat split; auto.
Qed.

Lemma fit_consistent s biadjacency s' :
  consistent s -> fit s biadjacency = Returns s' -> consistent s'.
Proof.
  intros (Hl & Hm & Hra & Ha & Hno & Hco).
  unfold fit, shape.
  destruct (_ <? _)%Z; [discriminate|].
  intros [= <-]. unfold consistent. simpl.
  split; [reflexivity|].
  split; [destruct (return_membership X s); [reflexivity | exact Hm]|].
  split; [exact Hra|]. split; [exact Ha|].
  split.
  - intros Hc. rewrite Hc. destruct (Hno Hc) as [-> ->].
    split; [reflexivity|]. now destruct (return_membership X s).
  - intros Hc. rewrite Hc. reflexivity.
Qed.

Lemma fit_bi_raise_same (s : BiKMeans X) biadjacency e s' :
  fit s biadjacency = Raises e s' -> s' = s.
Proof.
  unfold fit, shape.
  destruct (_ <? _)%Z; [now intros [= _ <-] | discriminate].
Qed.

Lemma reachable_consistent s : reachable s -> consistent s.
Proof.
  induction 1 as [n em co sc rm rb s Hnew | s b s' Hs IH Hfit
                  | s b e s' Hs IH Hfit].
  - eapply init_consistent; eauto.
  - eapply fit_consistent; eauto.
  - apply fit_bi_raise_same in Hfit. now subst.
Qed.

(** X7.  [BiKMeans.__init__] raises a [TypeError] when the embedding
    method has no [embedding_] attribute, and a [ValueError] when it has one
    but lacks [embedding_col_] while [co_cluster] or [return_membership] is
    set; otherwise it returns an object with [return_adjacency] [False], the
    given parameters and no fitted attribute. *)
Theorem bikmeans_init_outcome n em co sc rm rb :
  (hasattr em "embedding_" = false ->
     __init__ n em co sc rm rb = Raise no_embedding_error
     /\ is_TypeError no_embedding_error = true)
  /\ (hasattr em "embedding_" = true -> (co || rm) = true ->
      hasattr em "embedding_col_" = false ->
        __init__ n em co sc rm rb = Raise no_embedding_col_error
        /\ is_ValueError no_embedding_col_error = true)
  /\ (hasattr em "embedding_" = true ->
      ((co || rm) = true -> hasattr em "embedding_col_" = true) ->
        exists s, __init__ n em co sc rm rb = Ok s
          /\ n_clusters X s = n /\ embedding_method X s = em
          /\ co_cluster X s = co /\ sort_clusters X s = sc
          /\ return_membership X s = rm /\ return_biadjacency X s = rb
          /\ return_adjacency X s = false
          /\ labels_ X s = None /\ labels_row_ X s = None
          /\ labels_col_ X s = None /\ membership_ X s = None
          /\ membership_row_ X s = None /\ membership_col_ X s = None
          /\ biadjacency_ X s = None /\ adjacency_ X s = None).
Proof.
  unfold __init__, KMeansObject.__init__.
  split; [|split].
  - intros ->. simpl. split; reflexivity.
  - intros -> -> ->. simpl. split; reflexivity.
  - intros -> Hcol. simpl.
    destruct (co || rm); simpl.
    + rewrite Hcol by reflexivity. simpl. eexists. split; [reflexivity|].
      simpl. repeat split.
    + eexists. split; [reflexivity|]. simpl. repeat split.
Qed.

(** X8.  Whatever calls of [fit] an object built by [BiKMeans.__init__]
    has gone through: [labels_row_] equals [labels_] and [membership_row_]
    equals [membership_]; [adjacency_] never gets a value; without
    [co_cluster], [labels_col_] and [membership_col_] never get one; with
    [co_cluster], [labels_col_] holds a value exactly when [labels_]
    does. *)
Theorem bikmeans_attributes_consistent s :
  reachable s ->
  labels_row_ X s = labels_ X s
  /\ membership_row_ X s = membership_ X s
  /\ return_adjacency X s = false
  /\ adjacency_ X s = None
  /\ (co_cluster X s = false ->
      labels_col_ X s = None /\ membership_col_ X s = None)
  /\ (co_cluster X s = true ->
      has_value (labels_col_ X s) = has_value (labels_ X s)).
Proof.
  induction 1 as [n em co sc rm rb s Hnew | s b s' Hs IH Hfit
                  | s b e s' Hs IH Hfit].
  - exact (init_consistent _ _ _ _ _ _ _ Hnew).
  - exact (fit_consistent _ _ _ IH Hfit).
  - apply fit_bi_raise_same in Hfit. now subst.
Qed.

Lemma sorted_or_not_length sort labels :
  length (sorted_or_not sort labels) = length labels.
Proof.
  destruct sort; simpl; [apply reindex_clusters_length | reflexivity].
Qed.

(** X9.  With [co_cluster], a completed [fit] cuts the label vector of the
    joint clustering (sorted on request) at [n_row]: [labels_] and
    [labels_row_] get the part before, [labels_col_] the part after, and the
    two put end to end give the vector back, whatever its length.  When the
    dense k-means step labels every row and every column of the
    [n_row]-by-[n_col] biadjacency, these are [n_row] and [n_col] labels. *)
Theorem co_cluster_split (s : BiKMeans X) biadjacency s' :
  let method := embedder_fit X (embedding_method X s) biadjacency in
  let raw := KMeansDense_fit X (n_clusters X s)
               (vstack X (embedding_row_ X method) (embedding_col_ X method)) in
  co_cluster X s = true ->
  fit s biadjacency = Returns s' ->
  exists rows_l cols_l,
    labels_ X s' = Some rows_l /\ labels_row_ X s' = Some rows_l /\
    labels_col_ X s' = Some cols_l /\
    rows_l ++ cols_l = sorted_or_not (sort_clusters X s) raw /\
    length rows_l = Nat.min (n_rows biadjacency) (length raw) /\
    length cols_l = length raw - n_rows biadjacency /\
    (length raw = n_rows biadjacency + n_cols biadjacency ->
     length rows_l = n_rows biadjacency /\
     length cols_l = n_cols biadjacency).
Proof.
  intros method raw Hco. unfold fit, shape.
  destruct (_ <? _)%Z; [discriminate|].
  intros [= <-]. simpl. rewrite Hco.
  fold method. fold raw.
  pose proof (sorted_or_not_length (sort_clusters X s) raw) as Hlen.
  eexists. eexists.
  split; [reflexivity|]. split; [reflexivity|]. split; [reflexivity|].
  rewrite length_firstn, length_skipn, firstn_skipn, Hlen.
  repeat split; lia.
Qed.

(** X10.  On an object built by [BiKMeans.__init__] without [co_cluster],
    every completed [fit] clusters the rows only: [labels_] is the whole
    label vector, [labels_col_] and [membership_col_] stay without a value,
    the row membership goes through the two-step product with the
    biadjacency and its transpose, and [biadjacency_] is only reduced on
    the row side. *)
Theorem rows_only_fit s biadjacency s' :
  let method := embedder_fit X (embedding_method X s) biadjacency in
  let labels :=
    sorted_or_not (sort_clusters X s)
      (KMeansDense_fit X (n_clusters X s) (embedding_ X method)) in
  let membership_row := membership_matrix X labels in
  reachable s ->
  co_cluster X s = false ->
  fit s biadjacency = Returns s' ->
  labels_ X s' = Some labels
  /\ labels_col_ X s' = None /\ membership_col_ X s' = None
  /\ (return_membership X s = true ->
      membership_ X s'
      = Some (normalize X (dot X biadjacency
                               (dot X (transpose biadjacency) membership_row))))
  /\ (return_biadjacency X s = true ->
      biadjacency_ X s' = Some (dot X (transpose membership_row) biadjacency)).
Proof.
  intros method labels membership_row Hreach Hco.
  destruct (reachable_consistent s Hreach) as (_ & _ & _ & _ & Hno & _).
  destruct (Hno Hco) as [Hlc Hmc].
  unfold fit, shape.
  destruct (_ <? _)%Z; [discriminate|].
  intros [= <-]. simpl. rewrite Hco, Hlc, Hmc.
  fold method. fold labels. fold membership_row.
  split; [reflexivity|]. split; [reflexivity|].
  split; [now destruct (return_membership X s)|].
  split; intros ->; reflexivity.
Qed.

End Model.

Import KMeansObject(points, any_attribute).

Definition grid : csr_matrix :=
  {| n_cols := 3; rows := [[stored 0 1; stored 2 1]; [stored 1 1]] |}.

(** [BiKMeans(n_clusters=2, co_cluster=co)] as the constructor leaves
    it. *)
Definition bikmeans_new (co : bool) : BiKMeans points :=
  {| n_clusters := 2;
     embedding_method := ((0, 0) : Embedder points);
     sort_clusters := true;
     return_membership := true;
     return_adjacency := false;
     adjacency_ := None;
     co_cluster := co;
     return_biadjacency := true;
     labels_ := None;
     labels_row_ := None;
     labels_col_ := None;
     membership_ := None;
     membership_row_ := None;
     membership_col_ := None;
     biadjacency_ := None |}.

Example bikmeans_new_built co :
  __init__ points any_attribute 2 (0, 0) co true true true
  = Ok (bikmeans_new co).
Proof. destruct co; reflexivity. Qed.

Definition bikmeans_fitted (co : bool) : BiKMeans points :=
  Eval vm_compute in
    match fit (bikmeans_new co) grid with
    | Returns s => s
    | Raises _ s => s
    end.

Example bikmeans_fitted_labels :
  labels_ points (bikmeans_fitted true) = Some [0; 1]
  /\ labels_col_ points (bikmeans_fitted true) = Some [0; 1; 0]
  /\ labels_ points (bikmeans_fitted false) = Some [0; 1]
  /\ labels_col_ points (bikmeans_fitted false) = None.
Proof. repeat split; reflexivity. Qed.

Lemma bikmeans_new_reachable co :
  reachable points any_attribute (bikmeans_new co).
Proof.
  apply (reach_bi_new points any_attribute 2%Z (0, 0) co true true true).
  destruct co; reflexivity.
Defined.

Lemma bikmeans_fitted_reachable co :
  reachable points any_attribute (bikmeans_fitted co).
Proof.
  apply (reach_bi_fit points any_attribute (bikmeans_new co) grid).
  - apply bikmeans_new_reachable.
  - destruct co; reflexivity.
Defined.

(** After one joint fit of the rows and columns of [grid]. *)
Lemma bikmeans_attributes_consistent_witness :
  let s := bikmeans_fitted true in
  reachable points any_attribute s
  /\ (labels_row_ points s = labels_ points s
      /\ membership_row_ points s = membership_ points s
      /\ return_adjacency points s = false
      /\ adjacency_ points s = None
      /\ (co_cluster points s = false ->
          labels_col_ points s = None /\ membership_col_ points s = None)
      /\ (co_cluster points s = true ->
          has_value (labels_col_ points s) = has_value (labels_ points s))).
Proof.
  cbv zeta. split; [exact (bikmeans_fitted_reachable true)|].
  apply (bikmeans_attributes_consistent points any_attribute
           (bikmeans_fitted true)).
  exact (bikmeans_fitted_reachable true).
Defined.

(** The joint clustering of the 2 rows and 3 columns of [grid]. *)
Lemma co_cluster_split_witness :
  let s := bikmeans_new true in
  let s' := bikmeans_fitted true in
  let raw := KMeansDense_fit points 2
               (vstack points
                  (embedding_row_ points (embedder_fit points (0, 0) grid))
                  (embedding_col_ points (embedder_fit points (0, 0) grid))) in
  (co_cluster points s = true /\ fit s grid = Returns s')
  /\ exists rows_l cols_l,
       labels_ points s' = Some rows_l /\ labels_row_ points s' = Some rows_l /\
       labels_col_ points s' = Some cols_l /\
       rows_l ++ cols_l = sorted_or_not (sort_clusters points s) raw /\
       length rows_l = Nat.min (n_rows grid) (length raw) /\
       length cols_l = length raw - n_rows grid /\
       (length raw = n_rows grid + n_cols grid ->
        length rows_l = n_rows grid /\ length cols_l = n_cols grid).
Proof.
  cbv zeta. split; [split; reflexivity|].
  apply (co_cluster_split points (bikmeans_new true) grid
           (bikmeans_fitted true)); reflexivity.
Defined.

(** A rows-only fit of [grid]. *)
Lemma rows_only_fit_witness :
  let s := bikmeans_new false in
  let s' := bikmeans_fitted false in
  let labels :=
    sorted_or_not (sort_clusters points s)
      (KMeansDense_fit points (n_clusters points s)
         (embedding_ points (embedder_fit points (0, 0) grid))) in
  let membership_row := membership_matrix points labels in
  (reachable points any_attribute s
   /\ co_cluster points s = false
   /\ fit s grid = Returns s')
  /\ (labels_ points s' = Some labels
      /\ labels_col_ points s' = None /\ membership_col_ points s' = None
      /\ (return_membership points s = true ->
          membership_ points s'
          = Some (normalize points
                    (dot points grid
                         (dot points (transpose grid) membership_row))))
      /\ (return_biadjacency points s = true ->
          biadjacency_ points s'
          = Some (dot points (transpose membership_row) grid))).
Proof.
  cbv zeta. split.
  - split; [exact (bikmeans_new_reachable false)|]. split; reflexivity.
  - apply (rows_only_fit points any_attribute (bikmeans_new false) grid
             (bikmeans_fitted false)).
    + exact (bikmeans_new_reachable false).
    + reflexivity.
    + reflexivity.
Defined.

End BiKMeansObject.
